(** * Verto quiz backend: the question service and its answer-scoring loop

    A shallow embedding of [modules/question/question.service.ts]
    ([getQuizQuestions], [submitQuizAnswers]) and of the answer-submission
    schema of [validators/quiz.validator.ts], with the JavaScript and Prisma
    primitives they rely on, followed by the properties of the scoring
    engine. *)

From Stdlib Require Import ZArith NArith Ascii String List Bool Lia.
From Stdlib Require Import Floats.SpecFloat.
From stdpp Require Import base option gmap strings list fin_maps fin_sets sorting.

Local Open Scope string_scope.

(** ** JavaScript primitives *)

Module JS.

(** Strings are sequences of code units; the model covers the code units
    below 256 (Basic Latin and Latin-1 Supplement), one [ascii] each. *)

(** ECMAScript [WhiteSpace] and [LineTerminator] code points below 256:
    TAB, LF, VT, FF, CR, SP and NBSP. *)
Definition isWhiteSpace (c : ascii) : bool :=
  let n := N_of_ascii c in
  ((9 <=? n) && (n <=? 13) || (n =? 32) || (n =? 160))%N.

Fixpoint trimStart (s : string) : string :=
  match s with
  | EmptyString => EmptyString
  | String c s' => if isWhiteSpace c then trimStart s' else s
  end.

Fixpoint trimEnd (s : string) : string :=
  match s with
  | EmptyString => EmptyString
  | String c s' =>
      match trimEnd s' with
      | EmptyString => if isWhiteSpace c then EmptyString else String c EmptyString
      | t => String c t
      end
  end.

(** [String.prototype.trim] *)
Definition trim (s : string) : string := trimEnd (trimStart s).

(** Unicode lower-case mapping restricted to the code units below 256:
    A-Z, and the Latin-1 capitals U+00C0-U+00DE except U+00D7. *)
Definition lowerCodeUnit (c : ascii) : ascii :=
  let n := N_of_ascii c in
  if ((65 <=? n) && (n <=? 90) || (192 <=? n) && (n <=? 214)
      || (216 <=? n) && (n <=? 222))%N
  then ascii_of_N (n + 32) else c.

(** [String.prototype.toLowerCase] *)
Fixpoint toLowerCase (s : string) : string :=
  match s with
  | EmptyString => EmptyString
  | String c s' => String (lowerCodeUnit c) (toLowerCase s')
  end.

(** Truthiness of an optional string: [undefined] and [''] are falsy. *)
Definition truthy (o : option string) : bool :=
  match o with
  | Some (String _ _) => true
  | _ => false
  end.

(** Numbers are IEEE 754 binary64. *)
Definition prec : Z := 53.
Definition emax : Z := 1024.

Definition Number : Type := spec_float.

(** A count (array length, loop counter) as a Number. *)
Definition ofNat (n : nat) : Number :=
  binary_normalize prec emax (Z.of_nat n) 0 false.

Definition div (x y : Number) : Number := SFdiv prec emax x y.
Definition mul (x y : Number) : Number := SFmul prec emax x y.

(** [Math.round]: the integer closest to [x], ties towards +infinity.
    [None] stands for the results that are no integer (NaN, +-Infinity). *)
Definition Math_round (x : Number) : option Z :=
  match x with
  | S754_zero _ => Some 0%Z
  | S754_finite s m e =>
      let v := if s then Z.neg m else Z.pos m in
      Some (if (0 <=? e)%Z then (v * 2 ^ e)%Z
            else ((2 * v + 2 ^ (- e)) / 2 ^ (- e + 1))%Z)
  | _ => None
  end.

End JS.

(** ** http-status-codes *)

Module StatusCodes.
Definition BAD_REQUEST : Z := 400.
Definition NOT_FOUND : Z := 404.
End StatusCodes.

(** ** The application error thrown by the services *)

Record AppError := mkAppError {
  message : string;
  statusCode : Z
}.

(** A call either throws an [AppError] or returns a value. *)
Definition Result (A : Type) : Type := AppError + A.

(** ** The data store *)

(** The values of [type], as the creation schema enumerates them. *)
Inductive QuestionType := SINGLE_CHOICE | MULTIPLE_CHOICE | TEXT.

Definition QuestionType_eqb (a b : QuestionType) : bool :=
  match a, b with
  | SINGLE_CHOICE, SINGLE_CHOICE
  | MULTIPLE_CHOICE, MULTIPLE_CHOICE
  | TEXT, TEXT => true
  | _, _ => false
  end.

Definition typeName (t : QuestionType) : string :=
  match t with
  | SINGLE_CHOICE => "SINGLE_CHOICE"
  | MULTIPLE_CHOICE => "MULTIPLE_CHOICE"
  | TEXT => "TEXT"
  end.

(** Modelled from the spec: the Prisma schema (models Quiz, Question and
    Option) is not among the sources.  The rows carry the columns that the
    data model of the specification lists and that the question service
    reads; of a quiz it reads the identifier only. *)
Record Quiz := mkQuiz {
  quiz_id : string;
  quiz_title : string
}.

(** Modelled from the spec: the Option model of the absent Prisma schema;
    identifier, text, correctness flag and owning question. *)
Record OptionRow := mkOption {
  opt_id : string;
  opt_text : string;
  opt_isCorrect : bool;
  opt_questionId : string
}.

(** Modelled from the spec: the Question model of the absent Prisma schema;
    identifier, text, type and owning quiz (the options are rows of their
    own, joined by [include]). *)
Record QuestionRow := mkQuestionRow {
  row_id : string;
  row_text : string;
  row_type : QuestionType;
  row_quizId : string
}.

(** The three tables of the store. *)
Record Db := mkDb {
  quizTable : list Quiz;
  questionTable : list QuestionRow;
  optionTable : list OptionRow
}.

(** A question as [include: { options: true }] returns it. *)
Record Question := mkQuestion {
  q_id : string;
  q_text : string;
  q_type : QuestionType;
  q_quizId : string;
  q_options : list OptionRow
}.

(** Serialized values (what [res.json] sends). *)
#[warnings="-register-all"]
Inductive Json :=
| JStr (s : string)
| JBool (b : bool)
| JArr (l : list Json)
| JObj (fields : list (string * Json)).

Module Prisma.

(** [prisma.quiz.findUnique({ where: { id } })] *)
Definition quiz_findUnique (db : Db) (id : string) : option Quiz :=
  List.find (fun q => String.eqb (quiz_id q) id) (quizTable db).

Definition optionsOf (db : Db) (questionId : string) : list OptionRow :=
  List.filter (fun o => String.eqb (opt_questionId o) questionId) (optionTable db).

Definition withOptions (db : Db) (r : QuestionRow) : Question :=
  {| q_id := row_id r; q_text := row_text r; q_type := row_type r;
     q_quizId := row_quizId r; q_options := optionsOf db (row_id r) |}.

Definition rowsOf (db : Db) (quizId : string) : list QuestionRow :=
  List.filter (fun r => String.eqb (row_quizId r) quizId) (questionTable db).

(** [prisma.question.findMany({ where: { quizId }, include: { options: true } })] *)
Definition question_findMany (db : Db) (quizId : string) : list Question :=
  List.map (withOptions db) (rowsOf db quizId).

(** [orderBy: { id: 'asc' }] *)
Definition orderById (rows : list QuestionRow) : list QuestionRow :=
  merge_sort (fun a b => String.le (row_id a) (row_id b)) rows.

(** All the scalar columns of a row, as the query engine holds them. *)
Definition optionColumns (o : OptionRow) : list (string * Json) :=
  [("id", JStr (opt_id o)); ("text", JStr (opt_text o));
   ("isCorrect", JBool (opt_isCorrect o)); ("questionId", JStr (opt_questionId o))].

Definition questionColumns (r : QuestionRow) : list (string * Json) :=
  [("id", JStr (row_id r)); ("text", JStr (row_text r));
   ("type", JStr (typeName (row_type r))); ("quizId", JStr (row_quizId r))].

(** [select: { f1: true, ... }] keeps the named fields and no other. *)
Definition select (fields : list string) (columns : list (string * Json))
  : list (string * Json) :=
  List.filter (fun kv => existsb (String.eqb (fst kv)) fields) columns.

End Prisma.

(** ** Answer submission: the validated request body *)

Record Answer := mkAnswer {
  questionId : string;
  selectedOptionIds : option (list string);
  textAnswer : option string
}.

Record SubmitAnswersInput := mkSubmit {
  answers : list Answer
}.

Module Validator.

Section Schema.

(** zod's [uuid] format check, a primitive of the validation library. *)
Variable uuid : string -> bool.

(** The first disjunct of the refinement: option identifiers and no text. *)
Definition choicePayload (answer : Answer) : bool :=
  match selectedOptionIds answer with
  | Some ids => (0 <? length ids)%nat && negb (JS.truthy (textAnswer answer))
  | None => false
  end.

(** The second disjunct: text that is not blank, and no option identifier. *)
Definition textPayload (answer : Answer) : bool :=
  match textAnswer answer with
  | Some t =>
      JS.truthy (Some t) && (0 <? String.length (JS.trim t))%nat
      && match selectedOptionIds answer with
         | None => true
         | Some ids => (length ids =? 0)%nat
         end
  | None => false
  end.

(** The object schema of one answer. *)
Definition answerFields (answer : Answer) : bool :=
  uuid (questionId answer)
  && match selectedOptionIds answer with
     | Some ids => forallb uuid ids
     | None => true
     end
  && match textAnswer answer with
     | Some t => (String.length t <=? 300)%nat
     | None => true
     end.

(** [submitAnswersSchema]: [true] when the body parses. *)
Definition submitAnswersSchema (data : SubmitAnswersInput) : bool :=
  forallb answerFields (answers data)
  && (1 <=? length (answers data))%nat
  && forallb (fun answer => choicePayload answer || textPayload answer) (answers data).

End Schema.

Definition isHexDigit (c : ascii) : bool :=
  let n := N_of_ascii c in
  ((48 <=? n) && (n <=? 57) || (65 <=? n) && (n <=? 70) || (97 <=? n) && (n <=? 102))%N.

Fixpoint hexRun (n : nat) (s : string) : option string :=
  match n, s with
  | O, _ => Some s
  | S n', String c s' => if isHexDigit c then hexRun n' s' else None
  | S _, EmptyString => None
  end.

Fixpoint hexGroups (groups : list nat) (s : string) : bool :=
  match groups with
  | [] => false
  | [n] =>
      match hexRun n s with
      | Some EmptyString => true
      | _ => false
      end
  | n :: rest =>
      match hexRun n s with
      | Some (String "-" s') => hexGroups rest s'
      | _ => false
      end
  end.

(** The 8-4-4-4-12 hexadecimal layout of a UUID, the instance of the format
    check used to validate the sample requests. *)
Definition hexUuid (s : string) : bool := hexGroups [8; 4; 4; 4; 12]%nat s.

End Validator.

(** ** The scoring result *)

(** [correctAnswer?: string | string[]] *)
Inductive CorrectAnswer :=
| OneText (s : string)
| Texts (l : list string).

Record AnswerResult := mkResult {
  r_questionId : string;
  r_isCorrect : bool;
  r_correctAnswer : CorrectAnswer
}.

Record Score := mkScore {
  score : nat;
  total : nat;
  percentage : option Z;
  results : list AnswerResult
}.

(** ** question.service.ts *)

Module QuestionService.

Definition quizNotFound : AppError :=
  mkAppError "Quiz not found" StatusCodes.NOT_FOUND.

Definition noQuestions : AppError :=
  mkAppError "No questions found for this quiz" StatusCodes.BAD_REQUEST.

Definition unknownQuestion (id : string) : AppError :=
  mkAppError ("Question with ID " ++ id ++ " not found in this quiz")
             StatusCodes.BAD_REQUEST.

(** *** getQuizQuestions: the learner view *)

Definition learnerOption (o : OptionRow) : Json :=
  JObj (Prisma.select ["id"; "text"] (Prisma.optionColumns o)).

Definition learnerQuestion (db : Db) (r : QuestionRow) : Json :=
  JObj (Prisma.select ["id"; "text"; "type"] (Prisma.questionColumns r)
        ++ [("options", JArr (List.map learnerOption (Prisma.optionsOf db (row_id r))))]).

Definition getQuizQuestions (db : Db) (quizId : string) : Result (list Json) :=
  match Prisma.quiz_findUnique db quizId with
  | None => inl quizNotFound
  | Some _ =>
      inr (List.map (learnerQuestion db) (Prisma.orderById (Prisma.rowsOf db quizId)))
  end.

(** *** submitQuizAnswers *)

(** [new Map(questions.map(q => [q.id, q]))]: a later entry replaces an
    earlier one with the same key. *)
Definition questionMap (questions : list Question) : gmap string Question :=
  foldl (fun m q => <[q_id q := q]> m) ∅ questions.

Definition correctOptions (question : Question) : list OptionRow :=
  List.filter opt_isCorrect (q_options question).

(** The body of the loop once the question is resolved: the verdict and the
    recorded correct answer. *)
Definition scoreAnswer (question : Question) (answer : Answer) : AnswerResult :=
  let '(isCorrect, correctAnswer) :=
    if QuestionType_eqb (q_type question) TEXT then
      let correctOption := List.find opt_isCorrect (q_options question) in
      match correctOption, textAnswer answer with
      | Some correctOption, Some text =>
          if JS.truthy (Some text) then
            (String.eqb (JS.toLowerCase (JS.trim text))
                        (JS.toLowerCase (JS.trim (opt_text correctOption))),
             OneText (opt_text correctOption))
          else (false, OneText "")
      | _, _ => (false, OneText "")
      end
    else
      let correctOptionIds := List.map opt_id (correctOptions question) in
      let selectedIds := default [] (selectedOptionIds answer) in
      if QuestionType_eqb (q_type question) SINGLE_CHOICE then
        ((length selectedIds =? 1)%nat
         && (length correctOptionIds =? 1)%nat
         && bool_decide (selectedIds !! 0%nat = correctOptionIds !! 0%nat),
         OneText (default "" (opt_text <$> List.find opt_isCorrect (q_options question))))
      else if QuestionType_eqb (q_type question) MULTIPLE_CHOICE then
        let selectedSet : gset string := list_to_set selectedIds in
        let correctSet : gset string := list_to_set correctOptionIds in
        (bool_decide (size selectedSet = size correctSet)
         && forallb (fun id => bool_decide (id ∈ correctSet)) (elements selectedSet),
         Texts (List.map opt_text (correctOptions question)))
      else (false, OneText "")
  in
  {| r_questionId := questionId answer;
     r_isCorrect := isCorrect;
     r_correctAnswer := correctAnswer |}.

(** The [for] loop over the submitted answers, with its two accumulators:
    the running count [correctAnswers] and the [results] array. *)
Fixpoint scoreAnswers (qm : gmap string Question) (todo : list Answer)
    (correctAnswers : nat) (results : list AnswerResult)
    : Result (nat * list AnswerResult) :=
  match todo with
  | [] => inr (correctAnswers, results)
  | answer :: rest =>
      match qm !! questionId answer with
      | None => inl (unknownQuestion (questionId answer))
      | Some question =>
          let r := scoreAnswer question answer in
          scoreAnswers qm rest
            (if r_isCorrect r then S correctAnswers else correctAnswers)
            (results ++ [r])
      end
  end.

(** [Math.round((correctAnswers / questions.length) * 100)] *)
Definition percentageOf (correctAnswers questionCount : nat) : option Z :=
  JS.Math_round (JS.mul (JS.div (JS.ofNat correctAnswers) (JS.ofNat questionCount))
                        (JS.ofNat 100)).

Definition submitQuizAnswers (db : Db) (quizId : string)
    (answersData : SubmitAnswersInput) : Result Score :=
  match Prisma.quiz_findUnique db quizId with
  | None => inl quizNotFound
  | Some _ =>
      let questions := Prisma.question_findMany db quizId in
      if (length questions =? 0)%nat then inl noQuestions
      else
        match scoreAnswers (questionMap questions) (answers answersData) 0 [] with
        | inl e => inl e
        | inr (correctAnswers, results) =>
            inr {| score := correctAnswers;
                   total := length questions;
                   percentage := percentageOf correctAnswers (length questions);
                   results := results |}
        end
  end.

End QuestionService.

(** ** Sample stores and requests *)

Module Sample.

Definition quizId : string := "0a000000-0000-4000-8000-000000000001".

Definition singleId : string := "0b000000-0000-4000-8000-000000000001".
Definition multiId : string := "0b000000-0000-4000-8000-000000000002".
Definition textId : string := "0b000000-0000-4000-8000-000000000003".
Definition foreignId : string := "0b000000-0000-4000-8000-0000000000ff".

Definition opt (n : string) : string := "0c000000-0000-4000-8000-0000000000" ++ n.

(** The quiz of the test-suite: one question of each type. *)
Definition db : Db :=
  {| quizTable := [mkQuiz quizId "Test Quiz"];
     questionTable :=
       [mkQuestionRow singleId "What is 2 + 2?" SINGLE_CHOICE quizId;
        mkQuestionRow multiId "Which are programming languages?" MULTIPLE_CHOICE quizId;
        mkQuestionRow textId "What is the capital of France?" TEXT quizId];
     optionTable :=
       [mkOption (opt "11") "3" false singleId;
        mkOption (opt "12") "4" true singleId;
        mkOption (opt "13") "5" false singleId;
        mkOption (opt "21") "JavaScript" true multiId;
        mkOption (opt "22") "Python" true multiId;
        mkOption (opt "23") "HTML" false multiId;
        mkOption (opt "24") "TypeScript" true multiId;
        mkOption (opt "31") "Paris" true textId] |}.

Definition pick (qid : string) (ids : list string) : Answer :=
  mkAnswer qid (Some ids) None.

Definition write (qid : string) (t : string) : Answer :=
  mkAnswer qid None (Some t).

Definition allCorrect : SubmitAnswersInput :=
  mkSubmit [pick singleId [opt "12"];
            pick multiId [opt "24"; opt "21"; opt "22"; opt "21"];
            write textId " PARIS "].

(** The same correct answer submitted four times. *)
Definition repeated : SubmitAnswersInput :=
  mkSubmit (replicate 4 (pick singleId [opt "12"])).

(** Option identifiers sent for the TEXT question. *)
Definition mismatched : SubmitAnswersInput :=
  mkSubmit [pick textId [opt "31"]].

Definition withForeign : SubmitAnswersInput :=
  mkSubmit [pick singleId [opt "12"]; write foreignId "x"; write textId "Paris"].

(** A store whose MULTIPLE_CHOICE question has lost its correct options. *)
Definition brokenDb : Db :=
  {| quizTable := [mkQuiz quizId "Broken"];
     questionTable := [mkQuestionRow multiId "Pick some" MULTIPLE_CHOICE quizId];
     optionTable :=
       [mkOption (opt "21") "a" false multiId;
        mkOption (opt "22") "b" false multiId] |}.

Definition textForChoice : SubmitAnswersInput :=
  mkSubmit [write multiId "a"].

(** A quiz of forty SINGLE_CHOICE questions, each with one right and one
    wrong option. *)
Definition twoDigits (n : nat) : string :=
  String (ascii_of_nat (48 + n / 10)) (String (ascii_of_nat (48 + n mod 10)) "").

Definition bigQuestionId (n : nat) : string :=
  "0d000000-0000-4000-8000-0000000000" ++ twoDigits n.

Definition rightOption (n : nat) : string :=
  "0e000000-0000-4000-8000-0000000000" ++ twoDigits n.

Definition wrongOption (n : nat) : string :=
  "0f000000-0000-4000-8000-0000000000" ++ twoDigits n.

Definition bigDb : Db :=
  {| quizTable := [mkQuiz quizId "Forty questions"];
     questionTable :=
       List.map (fun n => mkQuestionRow (bigQuestionId n) "?" SINGLE_CHOICE quizId)
                (seq 0 40);
     optionTable :=
       flat_map (fun n => [mkOption (rightOption n) "yes" true (bigQuestionId n);
                           mkOption (wrongOption n) "no" false (bigQuestionId n)])
                (seq 0 40) |}.

(** Twenty-three questions answered, all of them correctly. *)
Definition twentyThree : SubmitAnswersInput :=
  mkSubmit (List.map (fun n => pick (bigQuestionId n) [rightOption n]) (seq 0 23)).

End Sample.

(** ** Vocabulary of the statements *)

(** Round half up of [100 * score / total] in exact arithmetic. *)
Definition exactPercentage (score total : nat) : Z :=
  ((200 * Z.of_nat score + Z.of_nat total) / (2 * Z.of_nat total))%Z.

(** The lookup table that [submitQuizAnswers] builds for a quiz. *)
Definition quizQuestions (db : Db) (quizId : string) : gmap string Question :=
  QuestionService.questionMap (Prisma.question_findMany db quizId).

(** What the loop appends for one answer, when its question resolves. *)
Definition resolved (qm : gmap string Question) (answer : Answer) : option AnswerResult :=
  (fun question => QuestionService.scoreAnswer question answer) <$> qm !! questionId answer.

Definition countCorrect (rs : list AnswerResult) : nat :=
  length (List.filter r_isCorrect rs).

(** The identifiers an answer selects ([selectedOptionIds || []]) and the
    identifiers of the options flagged correct. *)
Definition selectedIds (answer : Answer) : list string :=
  default [] (selectedOptionIds answer).

Definition correctIds (question : Question) : list string :=
  List.map opt_id (QuestionService.correctOptions question).

(** The invariant that the creation schema enforces on a stored question. *)
Definition typeInvariant (question : Question) : Prop :=
  match q_type question with
  | SINGLE_CHOICE => length (QuestionService.correctOptions question) = 1%nat
  | MULTIPLE_CHOICE | TEXT => QuestionService.correctOptions question <> []
  end.

(** An answer stripped of its payload. *)
Definition blank (answer : Answer) : Answer :=
  mkAnswer (questionId answer) None None.

(** Strings made of white space only. *)
Fixpoint blankString (s : string) : bool :=
  match s with
  | EmptyString => true
  | String c s' => JS.isWhiteSpace c && blankString s'
  end.

(** The keys of a serialized object. *)
Definition keys (j : Json) : list string :=
  match j with
  | JObj fields => List.map fst fields
  | _ => []
  end.

Definition optionsField (j : Json) : list Json :=
  match j with
  | JObj fields =>
      match List.find (fun kv => String.eqb (fst kv) "options") fields with
      | Some (_, JArr l) => l
      | _ => []
      end
  | _ => []
  end.

(** ** Question creation: the validated request body *)

Record OptionInput := mkOptionInput {
  oi_text : string;
  oi_isCorrect : bool
}.

(** [CreateQuestionInput]; [type] has passed the [z.enum] of the schema and
    is one of the three values. *)
Record CreateQuestionInput := mkCreateQuestion {
  cq_text : string;
  cq_type : QuestionType;
  cq_options : list OptionInput
}.

Module QuestionValidator.

(** The object schema of one option: text of 1 to 500 code units. *)
Definition optionFields (o : OptionInput) : bool :=
  (1 <=? String.length (oi_text o))%nat && (String.length (oi_text o) <=? 500)%nat.

(** The refinement of [createQuestionSchema]. *)
Definition refinement (data : CreateQuestionInput) : bool :=
  if QuestionType_eqb (cq_type data) TEXT then
    (length (cq_options data) =? 1)%nat
    && match cq_options data !! 0%nat with
       | Some o => (String.length (oi_text o) <=? 300)%nat
       | None => false
       end
  else
    let correctOptions := List.filter oi_isCorrect (cq_options data) in
    if QuestionType_eqb (cq_type data) SINGLE_CHOICE then
      (length correctOptions =? 1)%nat
    else if QuestionType_eqb (cq_type data) MULTIPLE_CHOICE then
      (1 <=? length correctOptions)%nat
    else true.

(** [createQuestionSchema]: [true] when the body parses. *)
Definition createQuestionSchema (data : CreateQuestionInput) : bool :=
  (1 <=? String.length (cq_text data))%nat
  && (String.length (cq_text data) <=? 1000)%nat
  && forallb optionFields (cq_options data)
  && (1 <=? length (cq_options data))%nat
  && refinement data.

End QuestionValidator.

(** ** Writes to the store *)

Module PrismaWrite.

(** The rows of a nested [options: { create: [...] }]; [oid i] is the
    identifier that the store assigns to the [i]-th of them. *)
Definition newOptions (questionId : string) (oid : nat -> string)
    (options : list OptionInput) : list OptionRow :=
  imap (fun i o => mkOption (oid i) (oi_text o) (oi_isCorrect o) questionId) options.

(** [prisma.question.create] with nested options; [qid] is the identifier
    that the store assigns to the question. *)
Definition question_create (db : Db) (qid : string) (oid : nat -> string)
    (quizId : string) (data : CreateQuestionInput) : Db :=
  {| quizTable := quizTable db;
     questionTable :=
       questionTable db ++ [mkQuestionRow qid (cq_text data) (cq_type data) quizId];
     optionTable := optionTable db ++ newOptions qid oid (cq_options data) |}.

(** [tx.option.deleteMany({ where: { questionId } })] *)
Definition option_deleteMany (db : Db) (questionId : string) : Db :=
  {| quizTable := quizTable db;
     questionTable := questionTable db;
     optionTable :=
       List.filter (fun o => negb (String.eqb (opt_questionId o) questionId))
                   (optionTable db) |}.

(** [tx.question.update] of text and type, with nested options created. *)
Definition question_update (db : Db) (questionId : string) (oid : nat -> string)
    (data : CreateQuestionInput) : Db :=
  {| quizTable := quizTable db;
     questionTable :=
       List.map (fun r => if String.eqb (row_id r) questionId
                          then mkQuestionRow (row_id r) (cq_text data) (cq_type data)
                                             (row_quizId r)
                          else r)
                (questionTable db);
     optionTable := optionTable db ++ newOptions questionId oid (cq_options data) |}.

(** Modelled from the spec: the referential actions of the absent Prisma
    schema.  Deleting a question deletes its options, deleting a quiz
    deletes its questions and their options (cascade), as the comments of
    the two services say. *)
Definition question_delete (db : Db) (questionId : string) : Db :=
  {| quizTable := quizTable db;
     questionTable :=
       List.filter (fun r => negb (String.eqb (row_id r) questionId)) (questionTable db);
     optionTable :=
       List.filter (fun o => negb (String.eqb (opt_questionId o) questionId))
                   (optionTable db) |}.

(** Modelled from the spec: the cascade from a quiz to its questions and
    from them to their options. *)
Definition quiz_delete (db : Db) (quizId : string) : Db :=
  {| quizTable :=
       List.filter (fun q => negb (String.eqb (quiz_id q) quizId)) (quizTable db);
     questionTable :=
       List.filter (fun r => negb (String.eqb (row_quizId r) quizId)) (questionTable db);
     optionTable :=
       List.filter
         (fun o => negb (existsb (fun r => String.eqb (row_id r) (opt_questionId o)
                                           && String.eqb (row_quizId r) quizId)
                                 (questionTable db)))
         (optionTable db) |}.

(** [prisma.question.findUnique({ where: { id } })] *)
Definition question_findUnique (db : Db) (id : string) : option QuestionRow :=
  List.find (fun r => String.eqb (row_id r) id) (questionTable db).

End PrismaWrite.

(** ** question.service.ts, the management functions *)

(** What [getQuestionById] returns: the question with its options and the
    [id] and [title] of its quiz ([None] only on a store whose question
    row names no quiz row). *)
Record QuestionDetail := mkDetail {
  qd_question : Question;
  qd_quiz : option Quiz
}.

Module QuestionAdmin.

Definition questionNotFound : AppError :=
  mkAppError "Question not found" StatusCodes.NOT_FOUND.

Definition createQuestion (db : Db) (qid : string) (oid : nat -> string)
    (quizId : string) (questionData : CreateQuestionInput) : Result (Db * Question) :=
  match Prisma.quiz_findUnique db quizId with
  | None => inl QuestionService.quizNotFound
  | Some _ =>
      let db' := PrismaWrite.question_create db qid oid quizId questionData in
      inr (db', Prisma.withOptions db'
                  (mkQuestionRow qid (cq_text questionData) (cq_type questionData) quizId))
  end.

Definition getQuizQuestionsWithAnswers (db : Db) (quizId : string)
    : Result (list Question) :=
  match Prisma.quiz_findUnique db quizId with
  | None => inl QuestionService.quizNotFound
  | Some _ =>
      inr (List.map (Prisma.withOptions db) (Prisma.orderById (Prisma.rowsOf db quizId)))
  end.

Definition getQuestionById (db : Db) (questionId : string) : Result QuestionDetail :=
  match PrismaWrite.question_findUnique db questionId with
  | None => inl questionNotFound
  | Some r =>
      inr {| qd_question := Prisma.withOptions db r;
             qd_quiz := Prisma.quiz_findUnique db (row_quizId r) |}
  end.

Definition updateQuestion (db : Db) (oid : nat -> string) (questionId : string)
    (questionData : CreateQuestionInput) : Result (Db * Question) :=
  match PrismaWrite.question_findUnique db questionId with
  | None => inl questionNotFound
  | Some existingQuestion =>
      let db1 := PrismaWrite.option_deleteMany db questionId in
      let db2 := PrismaWrite.question_update db1 questionId oid questionData in
      inr (db2, Prisma.withOptions db2
                  (mkQuestionRow (row_id existingQuestion) (cq_text questionData)
                                 (cq_type questionData) (row_quizId existingQuestion)))
  end.

Definition deleteQuestion (db : Db) (questionId : string) : Result (Db * string) :=
  match PrismaWrite.question_findUnique db questionId with
  | None => inl questionNotFound
  | Some _ =>
      inr (PrismaWrite.question_delete db questionId, "Question deleted successfully")
  end.

End QuestionAdmin.

(** ** quiz.service.ts *)

Module QuizService.

Definition deleteQuiz (db : Db) (quizId : string) : Result (Db * string) :=
  match Prisma.quiz_findUnique db quizId with
  | None => inl QuestionService.quizNotFound
  | Some _ => inr (PrismaWrite.quiz_delete db quizId, "Quiz deleted successfully")
  end.

End QuizService.

(** ** Responses and the global error handler *)

(** The response envelope [{ status, message, data? }]. *)
Record Envelope (D : Type) := mkEnvelope {
  env_status : string;
  env_message : string;
  env_data : option D
}.

Arguments mkEnvelope {D} _ _ _.
Arguments env_status {D} _.
Arguments env_message {D} _.
Arguments env_data {D} _.

Record Response (D : Type) := mkResponse {
  res_code : Z;
  res_body : Envelope D
}.

Arguments mkResponse {D} _ _.
Arguments res_code {D} _.
Arguments res_body {D} _.

(** The classes of the Prisma client errors that the handler tells apart. *)
Inductive PrismaError :=
| KnownRequestError (code : string)
| UnknownRequestError
| ValidationError.

(** A thrown value, as far as the handler reads it. *)
Record Thrown := mkThrown {
  err_prisma : option PrismaError;
  err_statusCode : option Z;
  err_message : option string;
  err_name : option string
}.

Module Middleware.

Definition CONFLICT : Z := 409.
Definition INTERNAL_SERVER_ERROR : Z := 500.

(** [sendSuccess(res, data, message)] *)
Definition sendSuccess {D} (data : D) (message : string) : Response D :=
  mkResponse 200 (mkEnvelope "success" message (Some data)).

(** [sendError(res, message = "Error", statusCode)]; the default applies to
    an [undefined] message. *)
Definition sendError {D} (message : option string) (statusCode : Z) : Response D :=
  mkResponse statusCode (mkEnvelope "error" (default "Error" message) None).

(** Truthiness of a number that is not NaN. *)
Definition truthyNumber (n : option Z) : bool :=
  match n with
  | Some z => negb (z =? 0)%Z
  | None => false
  end.

Definition errorHandler {D} (NODE_ENV : string) (err : Thrown) : Response D :=
  match err_prisma err with
  | Some (KnownRequestError code) =>
      if String.eqb code "P2002" then
        sendError (Some "A record with this data already exists") CONFLICT
      else if String.eqb code "P2025" then
        sendError (Some "Record not found") StatusCodes.NOT_FOUND
      else if String.eqb code "P2003" then
        sendError (Some "Foreign key constraint failed") StatusCodes.BAD_REQUEST
      else sendError (Some "Database error occurred") INTERNAL_SERVER_ERROR
  | Some UnknownRequestError =>
      sendError (Some "Unknown database error occurred") INTERNAL_SERVER_ERROR
  | Some ValidationError =>
      sendError (Some "Invalid data provided") StatusCodes.BAD_REQUEST
  | None =>
      if truthyNumber (err_statusCode err) && JS.truthy (err_message err) then
        sendError (err_message err) (default 0%Z (err_statusCode err))
      else if bool_decide (err_name err = Some "ValidationError") then
        sendError (err_message err) StatusCodes.BAD_REQUEST
      else
        let message :=
          if String.eqb NODE_ENV "production" then "Internal server error"
          else if JS.truthy (err_message err) then default "" (err_message err)
               else "Something went wrong" in
        sendError (Some message) INTERNAL_SERVER_ERROR
  end.

(** An [AppError] as a thrown value. *)
Definition thrownAppError (e : AppError) : Thrown :=
  {| err_prisma := None;
     err_statusCode := Some (statusCode e);
     err_message := Some (message e);
     err_name := Some "AppError" |}.

(** A controller: [try { sendSuccess(res, await service(...), message) }
    catch (err) { next(err) }], with [errorHandler] as the handler that
    [next] reaches. *)
Definition controller {D} (NODE_ENV : string) (outcome : Result D) (message : string)
    : Response D :=
  match outcome with
  | inr data => sendSuccess data message
  | inl e => errorHandler NODE_ENV (thrownAppError e)
  end.

End Middleware.

(** question.controller.ts *)
Module QuestionController.

Definition getQuizQuestions (NODE_ENV : string) (db : Db) (quizId : string)
    : Response (list Json) :=
  Middleware.controller NODE_ENV (QuestionService.getQuizQuestions db quizId)
    "Quiz questions fetched successfully".

Definition submitQuizAnswers (NODE_ENV : string) (db : Db) (quizId : string)
    (answersData : SubmitAnswersInput) : Response Score :=
  Middleware.controller NODE_ENV
    (QuestionService.submitQuizAnswers db quizId answersData)
    "Quiz answers submitted successfully".

Definition getQuestionById (NODE_ENV : string) (db : Db) (questionId : string)
    : Response QuestionDetail :=
  Middleware.controller NODE_ENV (QuestionAdmin.getQuestionById db questionId)
    "Question fetched successfully".

End QuestionController.

(** ** A question to add to the sample quiz *)

Module Fixture.

Definition newId : string := "0b000000-0000-4000-8000-000000000004".

(** The identifier of the [i]-th option that the store creates. *)
Definition newOptionId (i : nat) : string := Sample.opt (Sample.twoDigits (40 + i)).

Definition planet : CreateQuestionInput :=
  mkCreateQuestion "Largest planet?" SINGLE_CHOICE
    [mkOptionInput "Mars" false; mkOptionInput "Jupiter" true].

Definition sum : CreateQuestionInput :=
  mkCreateQuestion "What is 3 + 3?" SINGLE_CHOICE
    [mkOptionInput "5" false; mkOptionInput "6" true; mkOptionInput "7" false].

(** A TEXT question whose only option is not flagged correct. *)
Definition unflagged : CreateQuestionInput :=
  mkCreateQuestion "Capital of France?" TEXT [mkOptionInput "Paris" false].

End Fixture.

(** ** Vocabulary of the further statements *)

(** The learner's projection of a question with its options. *)
Definition learnerOf (q : Question) : Json :=
  JObj [("id", JStr (q_id q)); ("text", JStr (q_text q));
        ("type", JStr (typeName (q_type q)));
        ("options",
         JArr (List.map (fun o => JObj [("id", JStr (opt_id o)); ("text", JStr (opt_text o))])
                        (q_options q)))].

(** The answer that repeats what the question stores as correct. *)
Definition modelAnswer (question : Question) : Answer :=
  match q_type question with
  | TEXT =>
      mkAnswer (q_id question) None
        (opt_text <$> List.find opt_isCorrect (q_options question))
  | _ => mkAnswer (q_id question) (Some (correctIds question)) None
  end.

(** The pairs [(score, total)] with [score <= total <= bound]. *)
Definition scorePairs (bound : nat) : list (nat * nat) :=
  flat_map (fun t => List.map (fun s => (s, t)) (seq 0 (S t))) (seq 1 bound).

(** No row of the store bears or references the identifier: what the
    primary and foreign keys give for a newly generated identifier. *)
Definition freshQuestion (db : Db) (qid : string) : Prop :=
  Forall (fun r => row_id r <> qid) (questionTable db)
  /\ Forall (fun o => opt_questionId o <> qid) (optionTable db).

(** * Properties *)

Import QuestionService.

Local Open Scope list_scope.

(** ** Trimming and lower-casing *)

Lemma trimStart_blank w s :
  blankString w = true -> JS.trimStart (w ++ s)%string = JS.trimStart s.
Proof.
  induction w as [|c w IH]; simpl; [done|].
  rewrite andb_true_iff. intros [-> Hw]. by apply IH.
Qed.

Lemma trimStart_all_blank w : blankString w = true -> JS.trimStart w = EmptyString.
Proof.
  induction w as [|c w IH]; simpl; [done|].
  rewrite andb_true_iff. intros [-> Hw]. by apply IH.
Qed.

Lemma trimEnd_blank w : blankString w = true -> JS.trimEnd w = EmptyString.
Proof.
  induction w as [|c w IH]; simpl; [done|].
  rewrite andb_true_iff. intros [-> Hw]. by rewrite IH.
Qed.

Lemma trimEnd_app_blank s w :
  blankString w = true -> JS.trimEnd (s ++ w)%string = JS.trimEnd s.
Proof.
  intros Hw. induction s as [|c s IH]; simpl.
  - by apply trimEnd_blank.
  - by rewrite IH.
Qed.

Lemma trim_app_blank s w :
  blankString w = true -> JS.trim (s ++ w)%string = JS.trim s.
Proof.
  intros Hw. unfold JS.trim. induction s as [|c s IH].
  - change (EmptyString ++ w)%string with w.
    by rewrite (trimStart_all_blank w Hw).
  - change (String c s ++ w)%string with (String c (s ++ w)%string).
    cbn [JS.trimStart]. destruct (JS.isWhiteSpace c); [exact IH|].
    by apply (trimEnd_app_blank (String c s)).
Qed.

(** White space around a text does not survive [trim]. *)
Lemma trim_padding w1 s w2 :
  blankString w1 = true -> blankString w2 = true ->
  JS.trim (w1 ++ s ++ w2)%string = JS.trim s.
Proof.
  intros H1 H2. unfold JS.trim at 1. rewrite (trimStart_blank _ _ H1).
  apply (trim_app_blank s w2 H2).
Qed.

Lemma lowerCodeUnit_idempotent c :
  JS.lowerCodeUnit (JS.lowerCodeUnit c) = JS.lowerCodeUnit c.
Proof. destruct c as [[] [] [] [] [] [] [] []]; reflexivity. Qed.

Lemma toLowerCase_idempotent s :
  JS.toLowerCase (JS.toLowerCase s) = JS.toLowerCase s.
Proof.
  induction s as [|c s IH]; simpl; [done|].
  by rewrite lowerCodeUnit_idempotent, IH.
Qed.

Example trim_lower_Paris :
  List.map (fun t => JS.toLowerCase (JS.trim t)) ["Paris"; "PARIS"; " paris "]%string
  = ["paris"; "paris"; "paris"]%string.
Proof. reflexivity. Qed.

Example trim_keeps_inner_space :
  JS.toLowerCase (JS.trim "  New  York ") = "new  york"%string.
Proof. reflexivity. Qed.

(** ** The loop and its accumulators *)

Lemma scoreAnswers_resolved qm todo rl c rs :
  mapM (resolved qm) todo = Some rl ->
  scoreAnswers qm todo c rs = inr (c + countCorrect rl, rs ++ rl).
Proof.
  intros H. apply mapM_Some in H. revert c rs.
  induction H as [|a r todo rl Hr _ IH]; intros c rs; simpl.
  - unfold countCorrect; simpl. by rewrite Nat.add_0_r, app_nil_r.
  - unfold resolved in Hr.
    destruct (qm !! questionId a) as [q|]; simpl in Hr; [|done].
    inversion Hr; subst; clear Hr.
    rewrite IH, <- app_assoc. simpl.
    unfold countCorrect; simpl.
    destruct (r_isCorrect (scoreAnswer q a)); simpl; do 2 f_equal; lia.
Qed.

Lemma first_unresolved (qm : gmap string Question) (todo : list Answer) :
  Exists (fun a => qm !! questionId a = None) todo ->
  exists before a after,
    todo = before ++ a :: after
    /\ Forall (fun b => is_Some (qm !! questionId b)) before
    /\ qm !! questionId a = None.
Proof.
  induction todo as [|a todo IH]; intros H.
  - inversion H.
  - destruct (qm !! questionId a) as [q|] eqn:Hq.
    + assert (Hex : Exists (fun a => qm !! questionId a = None) todo).
      { inversion H; subst; [congruence | done]. }
      destruct (IH Hex) as (before & b & after & -> & Hbefore & Hb).
      exists (a :: before), b, after. repeat split; try done.
      constructor; [by rewrite Hq | done].
    + by exists [], a, todo.
Qed.

(** The loop stops at the first answer that does not resolve, whatever the
    accumulators hold by then. *)
Lemma scoreAnswers_abort qm before a after c rs :
  Forall (fun b => is_Some (qm !! questionId b)) before ->
  qm !! questionId a = None ->
  scoreAnswers qm (before ++ a :: after) c rs = inl (unknownQuestion (questionId a)).
Proof.
  intros Hbefore Ha. revert c rs.
  induction Hbefore as [|b before [q Hq] _ IH]; intros c rs; simpl.
  - by rewrite Ha.
  - rewrite Hq. apply IH.
Qed.

Lemma scoreAnswers_unresolved qm todo c rs :
  Exists (fun a => qm !! questionId a = None) todo ->
  exists e, scoreAnswers qm todo c rs = inl e.
Proof.
  intros H. destruct (first_unresolved _ _ H) as (before & a & after & -> & Hb & Ha).
  eexists. by apply scoreAnswers_abort.
Qed.

Lemma scoreAnswers_inr_inv qm todo c rs c' rs' :
  scoreAnswers qm todo c rs = inr (c', rs') ->
  exists rl, mapM (resolved qm) todo = Some rl
             /\ c' = (c + countCorrect rl)%nat /\ rs' = rs ++ rl.
Proof.
  intros H. destruct (mapM (resolved qm) todo) as [rl|] eqn:Hrl.
  - rewrite (scoreAnswers_resolved _ _ _ c rs Hrl) in H.
    inversion H; subst. by exists rl.
  - apply mapM_None in Hrl.
    assert (Hex : Exists (fun a => qm !! questionId a = None) todo).
    { eapply Exists_impl; [exact Hrl|]. intros a. unfold resolved.
      by destruct (qm !! questionId a). }
    destruct (scoreAnswers_unresolved _ _ c rs Hex) as [e Hrun]. congruence.
Qed.

Lemma resolved_all qm todo :
  Forall (fun a => is_Some (qm !! questionId a)) todo ->
  exists rl, mapM (resolved qm) todo = Some rl.
Proof.
  intros H. apply (mapM_is_Some (resolved qm)).
  eapply Forall_impl; [exact H|]. intros a [q Hq]. simpl.
  unfold resolved. rewrite Hq. by eexists.
Qed.

Lemma resolved_lookup qm todo rl i answer question :
  mapM (resolved qm) todo = Some rl ->
  todo !! i = Some answer ->
  qm !! questionId answer = Some question ->
  rl !! i = Some (scoreAnswer question answer).
Proof.
  intros Hrl Hi Hq. apply mapM_Some in Hrl.
  destruct (Forall2_lookup_l _ _ _ _ _ Hrl Hi) as (r & Hr & Hres).
  unfold resolved in Hres. rewrite Hq in Hres. simpl in Hres. congruence.
Qed.

Lemma questionMap_nil : questionMap [] = ∅.
Proof. reflexivity. Qed.

(** ** The whole call *)

Lemma submit_inr_inv db quizId data sc :
  submitQuizAnswers db quizId data = inr sc ->
  is_Some (Prisma.quiz_findUnique db quizId)
  /\ Prisma.question_findMany db quizId <> []
  /\ mapM (resolved (quizQuestions db quizId)) (answers data) = Some (results sc)
  /\ score sc = countCorrect (results sc)
  /\ total sc = length (Prisma.question_findMany db quizId)
  /\ percentage sc = percentageOf (score sc) (total sc).
Proof.
  unfold submitQuizAnswers, quizQuestions. intros H.
  destruct (Prisma.quiz_findUnique db quizId) as [quiz|]; [|done].
  destruct (length (Prisma.question_findMany db quizId) =? 0)%nat eqn:Hlen; [done|].
  destruct (scoreAnswers _ _ 0 []) as [e|[c rs]] eqn:Hrun; [done|].
  apply scoreAnswers_inr_inv in Hrun as (rl & Hrl & -> & ->).
  inversion H; subst; clear H. simpl.
  repeat split; try done.
  intros Hnil. rewrite Hnil in Hlen. done.
Qed.

Lemma submit_resolved db quizId data rl :
  is_Some (Prisma.quiz_findUnique db quizId) ->
  Prisma.question_findMany db quizId <> [] ->
  mapM (resolved (quizQuestions db quizId)) (answers data) = Some rl ->
  submitQuizAnswers db quizId data =
    inr {| score := countCorrect rl;
           total := length (Prisma.question_findMany db quizId);
           percentage := percentageOf (countCorrect rl)
                           (length (Prisma.question_findMany db quizId));
           results := rl |}.
Proof.
  intros [quiz Hquiz] Hne Hrl. unfold submitQuizAnswers, quizQuestions in *.
  rewrite Hquiz.
  destruct (Prisma.question_findMany db quizId) as [|q qs] eqn:Hqs; [done|].
  simpl length. simpl Nat.eqb. cbv iota.
  by rewrite (scoreAnswers_resolved _ _ _ 0 [] Hrl).
Qed.

(** When the quiz exists and every answer names one of its questions, the
    call returns, and the [i]-th result is the verdict on the [i]-th answer. *)
Lemma submit_answer db quizId data i answer question :
  is_Some (Prisma.quiz_findUnique db quizId) ->
  Forall (fun a => is_Some (quizQuestions db quizId !! questionId a)) (answers data) ->
  answers data !! i = Some answer ->
  quizQuestions db quizId !! questionId answer = Some question ->
  exists sc, submitQuizAnswers db quizId data = inr sc
             /\ results sc !! i = Some (scoreAnswer question answer).
Proof.
  intros Hquiz Hall Hi Hq.
  destruct (resolved_all _ _ Hall) as [rl Hrl].
  eexists. split.
  - apply submit_resolved; [done| |exact Hrl].
    intros Hnil. unfold quizQuestions in Hq. rewrite Hnil, questionMap_nil in Hq.
    by rewrite lookup_empty in Hq.
  - simpl. eapply resolved_lookup; eauto.
Qed.

(** ** The verdict on one answer, by question type *)

Lemma scoreAnswer_questionId question answer :
  r_questionId (scoreAnswer question answer) = questionId answer.
Proof. unfold scoreAnswer. by destruct (if QuestionType_eqb _ _ then _ else _). Qed.

Lemma elem_of_correctIds question id :
  id ∈ correctIds question <->
  exists o, o ∈ q_options question /\ opt_isCorrect o = true /\ opt_id o = id.
Proof.
  unfold correctIds, correctOptions.
  rewrite list_elem_of_In, in_map_iff. split.
  - intros (o & <- & Ho). apply filter_In in Ho as [Ho Hc].
    exists o. by rewrite list_elem_of_In.
  - intros (o & Ho & Hc & <-). exists o. split; [done|].
    apply filter_In. by rewrite <- list_elem_of_In.
Qed.

Lemma find_correct_None question :
  List.find opt_isCorrect (q_options question) = None <-> correctOptions question = [].
Proof.
  unfold correctOptions. induction (q_options question) as [|o l IH]; simpl; [done|].
  destruct (opt_isCorrect o); [split; discriminate | exact IH].
Qed.

Lemma find_correct_head question :
  List.find opt_isCorrect (q_options question) = head (correctOptions question).
Proof.
  unfold correctOptions. induction (q_options question) as [|o l IH]; simpl; [done|].
  by destruct (opt_isCorrect o).
Qed.

Lemma multiple_verdict question answer :
  q_type question = MULTIPLE_CHOICE ->
  r_isCorrect (scoreAnswer question answer) = true <->
  (list_to_set (selectedIds answer) : gset string) = list_to_set (correctIds question).
Proof.
  intros Htype. unfold scoreAnswer. rewrite Htype. simpl.
  fold (selectedIds answer). fold (correctIds question).
  rewrite andb_true_iff, bool_decide_eq_true, forallb_forall. split.
  - intros [Hsize Hall]. apply set_subseteq_size_eq; [|lia].
    intros id Hid. specialize (Hall id).
    rewrite <- list_elem_of_In, elem_of_elements, bool_decide_eq_true in Hall. auto.
  - intros ->. split; [done|]. intros id Hid.
    apply bool_decide_eq_true. by rewrite <- list_elem_of_In, elem_of_elements in Hid.
Qed.

Lemma multiple_correctAnswer question answer :
  q_type question = MULTIPLE_CHOICE ->
  r_correctAnswer (scoreAnswer question answer)
  = Texts (List.map opt_text (correctOptions question)).
Proof. intros Htype. unfold scoreAnswer. by rewrite Htype. Qed.

Lemma single_verdict question answer :
  q_type question = SINGLE_CHOICE ->
  r_isCorrect (scoreAnswer question answer) = true <->
  exists sel c, selectedIds answer = [sel] /\ correctOptions question = [c]
                /\ sel = opt_id c.
Proof.
  intros Htype. unfold scoreAnswer. rewrite Htype. simpl.
  fold (selectedIds answer).
  rewrite !andb_true_iff, bool_decide_eq_true, !Nat.eqb_eq, length_map. split.
  - intros [[Hsel Hcor] Heq].
    destruct (selectedIds answer) as [|sel [|]]; try done.
    destruct (correctOptions question) as [|c [|]]; try done.
    exists sel, c. simpl in Heq. repeat split; congruence.
  - intros (sel & c & -> & -> & ->). done.
Qed.

Lemma single_correctAnswer question answer :
  q_type question = SINGLE_CHOICE ->
  r_correctAnswer (scoreAnswer question answer)
  = OneText (match List.find opt_isCorrect (q_options question) with
             | Some c => opt_text c
             | None => EmptyString
             end).
Proof.
  intros Htype. unfold scoreAnswer. rewrite Htype. simpl.
  by destruct (List.find opt_isCorrect (q_options question)).
Qed.

Lemma text_result question answer :
  q_type question = TEXT ->
  scoreAnswer question answer =
    match List.find opt_isCorrect (q_options question), textAnswer answer with
    | Some c, Some (String a t) =>
        mkResult (questionId answer)
          (String.eqb (JS.toLowerCase (JS.trim (String a t)))
                      (JS.toLowerCase (JS.trim (opt_text c))))
          (OneText (opt_text c))
    | _, _ => mkResult (questionId answer) false (OneText EmptyString)
    end.
Proof.
  intros Htype. unfold scoreAnswer. rewrite Htype. simpl.
  destruct (List.find opt_isCorrect (q_options question)) as [c|];
    destruct (textAnswer answer) as [[|a t]|]; reflexivity.
Qed.

(** ** Claims about the verdicts *)

(** C1.  A MULTIPLE_CHOICE answer is marked correct exactly when the set of
    its selected option identifiers (duplicates collapse, order is
    irrelevant) is the set of the identifiers of the options flagged
    correct: the two sets then have the same size, and a selection that is a
    strict subset or a strict superset of the correct set is marked
    incorrect.  The call itself returns whenever the quiz exists and every
    answer names one of its questions. *)
Theorem multiple_choice_exact_set db quizId data i answer question :
  is_Some (Prisma.quiz_findUnique db quizId) ->
  Forall (fun a => is_Some (quizQuestions db quizId !! questionId a)) (answers data) ->
  answers data !! i = Some answer ->
  quizQuestions db quizId !! questionId answer = Some question ->
  q_type question = MULTIPLE_CHOICE ->
  exists sc r,
    submitQuizAnswers db quizId data = inr sc
    /\ results sc !! i = Some r
    /\ (r_isCorrect r = true <->
        forall id, id ∈ selectedIds answer <->
                   exists o, o ∈ q_options question /\ opt_isCorrect o = true
                             /\ opt_id o = id)
    /\ (r_isCorrect r = true ->
        size (list_to_set (selectedIds answer) : gset string)
        = size (list_to_set (correctIds question) : gset string))
    /\ ((list_to_set (selectedIds answer) : gset string)
          ⊂ list_to_set (correctIds question) -> r_isCorrect r = false)
    /\ ((list_to_set (correctIds question) : gset string)
          ⊂ list_to_set (selectedIds answer) -> r_isCorrect r = false).
Proof.
  intros Hquiz Hall Hi Hq Htype.
  destruct (submit_answer _ _ _ _ _ _ Hquiz Hall Hi Hq) as (sc & Hsc & Hr).
  exists sc, (scoreAnswer question answer).
  pose proof (multiple_verdict question answer Htype) as Hv.
  split; [done|]. split; [done|]. split; [|split; [|split]].
  - rewrite Hv, set_eq. split; intros Hmem x; specialize (Hmem x).
    + by rewrite !elem_of_list_to_set, elem_of_correctIds in Hmem.
    + by rewrite !elem_of_list_to_set, elem_of_correctIds.
  - intros Hc. apply Hv in Hc. by rewrite Hc.
  - intros Hsub. apply not_true_is_false. intros Hc. apply Hv in Hc.
    rewrite Hc in Hsub. by apply (irreflexivity (⊂)) in Hsub.
  - intros Hsub. apply not_true_is_false. intros Hc. apply Hv in Hc.
    rewrite Hc in Hsub. by apply (irreflexivity (⊂)) in Hsub.
Qed.

(** On the sample quiz: the three correct options, shuffled and with one repeated. *)
Lemma multiple_choice_exact_set_witness :
  exists sc r,
    submitQuizAnswers Sample.db Sample.quizId Sample.allCorrect = inr sc
    /\ results sc !! 1%nat = Some r
    /\ r_isCorrect r = true.
Proof.
  destruct (multiple_choice_exact_set Sample.db Sample.quizId Sample.allCorrect 1%nat
              (Sample.pick Sample.multiId
                 [Sample.opt "24"; Sample.opt "21"; Sample.opt "22"; Sample.opt "21"])
              (Prisma.withOptions Sample.db
                 (mkQuestionRow Sample.multiId "Which are programming languages?"
                    MULTIPLE_CHOICE Sample.quizId)))
    as (sc & r & Hsc & Hr & _ & _ & _ & _).
  - vm_compute. eauto.
  - repeat constructor; vm_compute; eauto.
  - reflexivity.
  - vm_compute. reflexivity.
  - reflexivity.
  - exists sc, r. repeat split; try done.
    vm_compute in Hsc. inversion Hsc; subst sc.
    vm_compute in Hr. by inversion Hr.
Defined.


(** Closing the side conditions of a statement at a sample store. *)
Ltac at_sample :=
  first [ reflexivity
        | vm_compute; reflexivity
        | vm_compute; eexists; reflexivity
        | repeat constructor; vm_compute; eexists; reflexivity ].



(** The three spellings of the specification are accepted for "Paris";
    a space inside the word is not. *)
Example paris_spellings :
  List.map (fun t => r_isCorrect
                       (scoreAnswer (Prisma.withOptions Sample.db
                                       (mkQuestionRow Sample.textId "" TEXT Sample.quizId))
                                    (Sample.write Sample.textId t)))
           ["Paris"; "PARIS"; " paris "; "Par is"; "London"]%string
  = [true; true; true; false; false].
Proof. reflexivity. Qed.

(** The verdict on a text does not change with white space around it. *)
Lemma text_verdict_ignores_padding question qid sel t w1 w2 :
  q_type question = TEXT ->
  t <> EmptyString ->
  blankString w1 = true -> blankString w2 = true ->
  r_isCorrect (scoreAnswer question (mkAnswer qid sel (Some (w1 ++ t ++ w2)%string)))
  = r_isCorrect (scoreAnswer question (mkAnswer qid sel (Some t))).
Proof.
  intros Htype Ht H1 H2. rewrite !(text_result _ _ Htype). simpl.
  destruct (List.find opt_isCorrect (q_options question)) as [c|].
  - destruct t as [|a t]; [done|].
    destruct (w1 ++ String a t ++ w2)%string as [|b u] eqn:Hpad.
    + destruct w1; discriminate.
    + simpl. rewrite <- Hpad. by rewrite trim_padding.
  - by destruct (w1 ++ t ++ w2)%string, t.
Qed.

(** C3.  A SINGLE_CHOICE answer is marked correct exactly when it selects
    one option identifier, the question has one option flagged correct, and
    the two identifiers are equal; a question whose number of correct
    options is not one always gets the verdict incorrect, the call
    returning all the same; and [correctAnswer] is the text of the first
    correct option, or the empty string when there is none. *)
Theorem single_choice_exact db quizId data i answer question :
  is_Some (Prisma.quiz_findUnique db quizId) ->
  Forall (fun a => is_Some (quizQuestions db quizId !! questionId a)) (answers data) ->
  answers data !! i = Some answer ->
  quizQuestions db quizId !! questionId answer = Some question ->
  q_type question = SINGLE_CHOICE ->
  exists sc r,
    submitQuizAnswers db quizId data = inr sc
    /\ results sc !! i = Some r
    /\ (r_isCorrect r = true <->
        exists sel c, selectedIds answer = [sel]
                      /\ List.filter opt_isCorrect (q_options question) = [c]
                      /\ sel = opt_id c)
    /\ (length (List.filter opt_isCorrect (q_options question)) <> 1%nat ->
        r_isCorrect r = false)
    /\ r_correctAnswer r
       = OneText (match List.find opt_isCorrect (q_options question) with
                  | Some c => opt_text c
                  | None => EmptyString
                  end).
Proof.
  intros Hquiz Hall Hi Hq Htype.
  destruct (submit_answer _ _ _ _ _ _ Hquiz Hall Hi Hq) as (sc & Hsc & Hr).
  exists sc, (scoreAnswer question answer).
  pose proof (single_verdict question answer Htype) as Hv.
  unfold correctOptions in Hv.
  split; [done|]. split; [done|]. split; [exact Hv|]. split.
  - intros Hlen. apply not_true_is_false. intros Hc.
    apply Hv in Hc as (sel & c & _ & Hone & _). by rewrite Hone in Hlen.
  - by apply single_correctAnswer.
Qed.

(** On the sample quiz: the one correct option of "What is 2 + 2?". *)
Lemma single_choice_exact_witness :
  exists sc r,
    submitQuizAnswers Sample.db Sample.quizId Sample.allCorrect = inr sc
    /\ results sc !! 0%nat = Some r
    /\ r_isCorrect r = true
    /\ r_correctAnswer r = OneText "4".
Proof.
  destruct (single_choice_exact Sample.db Sample.quizId Sample.allCorrect 0%nat
              (Sample.pick Sample.singleId [Sample.opt "12"])
              (Prisma.withOptions Sample.db
                 (mkQuestionRow Sample.singleId "What is 2 + 2?"
                    SINGLE_CHOICE Sample.quizId)))
    as (sc & r & Hsc & Hr & Hiff & _ & Hans); try at_sample.
  exists sc, r. split; [done|]. split; [done|]. split; [|exact Hans].
  apply Hiff.
  exists (Sample.opt "12"), (mkOption (Sample.opt "12") "4" true Sample.singleId).
  repeat split; reflexivity.
Defined.

(** ** Claims about the whole call *)

(** C4.  When some submitted answer names a question that is not in the
    quiz, the call returns no score at all: it throws.  If the quiz exists
    and has questions, the error is the bad-request (400) "not found in this
    quiz" error naming the first such answer, and the loop throws it
    whatever count and results it had accumulated before. *)
Theorem unknown_reference_aborts db quizId data :
  Exists (fun a => quizQuestions db quizId !! questionId a = None) (answers data) ->
  exists e,
    submitQuizAnswers db quizId data = inl e
    /\ (is_Some (Prisma.quiz_findUnique db quizId) ->
        Prisma.question_findMany db quizId <> [] ->
        exists before a after,
          answers data = before ++ a :: after
          /\ Forall (fun b => is_Some (quizQuestions db quizId !! questionId b)) before
          /\ quizQuestions db quizId !! questionId a = None
          /\ e = unknownQuestion (questionId a)
          /\ statusCode e = StatusCodes.BAD_REQUEST
          /\ forall c rs,
               scoreAnswers (quizQuestions db quizId) (answers data) c rs = inl e).
Proof.
  intros Hex.
  destruct (first_unresolved _ _ Hex) as (before & a & after & Hsplit & Hb & Ha).
  unfold submitQuizAnswers. fold (quizQuestions db quizId).
  destruct (Prisma.quiz_findUnique db quizId) as [quiz|].
  - destruct (Prisma.question_findMany db quizId) as [|q0 qs] eqn:Hqs.
    + exists noQuestions. split; [done|]. intros _ Hne. done.
    + simpl length. simpl Nat.eqb. cbv iota.
      rewrite Hsplit, (scoreAnswers_abort _ _ _ _ _ _ Hb Ha).
      eexists. split; [reflexivity|]. intros _ _.
      exists before, a, after. repeat split; try done.
      intros c rs. by apply scoreAnswers_abort.
  - exists quizNotFound. split; [done|]. by intros [? ?].
Qed.

(** On the sample quiz: a foreign identifier between two good answers. *)
Lemma unknown_reference_aborts_witness :
  submitQuizAnswers Sample.db Sample.quizId Sample.withForeign
  = inl (unknownQuestion Sample.foreignId).
Proof.
  destruct (unknown_reference_aborts Sample.db Sample.quizId Sample.withForeign)
    as (e & He & _).
  - apply Exists_cons_tl, Exists_cons_hd. vm_compute. reflexivity.
  - rewrite He. vm_compute in He. by inversion He.
Defined.

(** The aggregate of a call that returns: [total] is the number of questions
    of the quiz, [score] the number of results marked correct, one result
    per submitted answer, and [percentage] the rounded binary64 product. *)
Lemma aggregate_fields db quizId data sc :
  submitQuizAnswers db quizId data = inr sc ->
  total sc = length (Prisma.question_findMany db quizId)
  /\ (1 <= total sc)%nat
  /\ score sc = countCorrect (results sc)
  /\ length (results sc) = length (answers data)
  /\ percentage sc = percentageOf (score sc) (total sc).
Proof.
  intros H. apply submit_inr_inv in H as (_ & Hne & Hrl & Hscore & Htotal & Hpct).
  repeat split; try done.
  - rewrite Htotal. destruct (Prisma.question_findMany db quizId); [done|simpl; lia].
  - symmetry. by eapply length_mapM.
Qed.

Lemma exactPercentage_spec s t :
  (0 < t)%nat ->
  (2 * Z.of_nat t * exactPercentage s t <= 200 * Z.of_nat s + Z.of_nat t
   < 2 * Z.of_nat t * (exactPercentage s t + 1))%Z.
Proof.
  intros Ht. unfold exactPercentage.
  pose proof (Z.mul_div_le (200 * Z.of_nat s + Z.of_nat t) (2 * Z.of_nat t)).
  pose proof (Z.mul_succ_div_gt (200 * Z.of_nat s + Z.of_nat t) (2 * Z.of_nat t)).
  lia.
Qed.

(** The binary64 quotient 23/40 lies below 0.575, and its product with 100
    is the double just below 57.5. *)
Lemma drift_23_40 :
  JS.div (JS.ofNat 23) (JS.ofNat 40) = S754_finite false 5179139571476070 (-53)
  /\ JS.mul (JS.div (JS.ofNat 23) (JS.ofNat 40)) (JS.ofNat 100)
     = S754_finite false 8092405580431359 (-47)
  /\ (8092405580431359 * 2 < 115 * 2 ^ 47)%Z.
Proof. split; [|split]; vm_compute; reflexivity. Qed.

(** C5.  On the forty-question quiz with twenty-three answers, all correct
    and each to a different question, the request passes the schema and the
    call returns score 23 and total 40, as claimed, but percentage 57, where
    100 * 23 / 40 = 57.5 rounds half up to 58. *)
Theorem percentage_23_of_40 :
  Validator.submitAnswersSchema Validator.hexUuid Sample.twentyThree = true
  /\ NoDup (List.map questionId (answers Sample.twentyThree))
  /\ exists sc,
       submitQuizAnswers Sample.bigDb Sample.quizId Sample.twentyThree = inr sc
       /\ length (Prisma.question_findMany Sample.bigDb Sample.quizId) = 40%nat
       /\ total sc = 40%nat
       /\ score sc = 23%nat
       /\ Forall (fun r => r_isCorrect r = true) (results sc)
       /\ percentage sc = Some 57%Z
       /\ exactPercentage (score sc) (total sc) = 58%Z.
Proof.
  split; [vm_compute; reflexivity|]. split.
  - apply (bool_decide_unpack _). vm_compute. exact I.
  - eexists. split; [vm_compute; reflexivity|]. simpl.
    repeat split; try (vm_compute; reflexivity).
    repeat constructor.
Qed.

(** ** The learner view *)

Lemma learnerOption_fields o :
  learnerOption o = JObj [("id", JStr (opt_id o)); ("text", JStr (opt_text o))].
Proof. reflexivity. Qed.

(** C6.  Every option that [getQuizQuestions] returns is serialized with the
    keys [id] and [text] and no other: [isCorrect] is not among them, though
    the stored rows carry it. *)
Theorem learner_view_hides_isCorrect db quizId qs :
  getQuizQuestions db quizId = inr qs ->
  Forall (fun q =>
            keys q = ["id"; "text"; "type"; "options"]%string
            /\ Forall (fun o => keys o = ["id"; "text"]%string
                                /\ (("isCorrect" : string) ∉ keys o)
                                /\ exists row, o = JObj [("id", JStr (opt_id row));
                                                         ("text", JStr (opt_text row))])
                      (optionsField q))
         qs.
Proof.
  unfold getQuizQuestions.
  destruct (Prisma.quiz_findUnique db quizId) as [quiz|]; [|done].
  intros H. inversion H; subst; clear H.
  apply List.Forall_map, Forall_forall. intros r _. split; [reflexivity|].
  change (optionsField (learnerQuestion db r))
    with (List.map learnerOption (Prisma.optionsOf db (row_id r))).
  apply List.Forall_map, Forall_forall. intros o _.
  rewrite learnerOption_fields. simpl. repeat split.
  - intros Hin. repeat (apply elem_of_cons in Hin as [Hin|Hin]; [discriminate|]).
    by apply elem_of_nil in Hin.
  - by exists o.
Qed.

(** On the sample quiz: three questions, no correctness key in any option. *)
Lemma learner_view_hides_isCorrect_witness :
  exists qs, getQuizQuestions Sample.db Sample.quizId = inr qs
             /\ length qs = 3%nat
             /\ Forall (fun q => Forall (fun o => ("isCorrect" : string) ∉ keys o)
                                        (optionsField q)) qs.
Proof.
  eexists. split; [vm_compute; reflexivity|]. split; [reflexivity|].
  eapply Forall_impl.
  - apply (learner_view_hides_isCorrect Sample.db Sample.quizId). vm_compute. reflexivity.
  - intros q [_ Hq]. eapply Forall_impl; [exact Hq|]. by intros o (_ & Ho & _).
Defined.

(** ** The score against the number of questions *)

Lemma countCorrect_le rs : (countCorrect rs <= length rs)%nat.
Proof.
  unfold countCorrect. induction rs as [|r rs IH]; simpl; [lia|].
  destruct (r_isCorrect r); simpl; lia.
Qed.

Lemma questionMap_size questions :
  (size (questionMap questions) <= length questions)%nat.
Proof.
  unfold questionMap.
  assert (H : forall (m : gmap string Question),
             (size (foldl (fun m q => <[q_id q := q]> m) m questions)
              <= size m + length questions)%nat).
  { induction questions as [|q qs IH]; intros m; simpl; [lia|].
    etrans; [apply IH|]. rewrite map_size_insert.
    destruct (m !! q_id q); simpl; lia. }
  specialize (H ∅). by rewrite map_size_empty in H.
Qed.

(** Answers to pairwise distinct questions of the quiz are no more than the
    quiz has questions. *)
Lemma distinct_answers_le (qm : gmap string Question) (todo : list Answer) :
  Forall (fun a => is_Some (qm !! questionId a)) todo ->
  NoDup (List.map questionId todo) ->
  (length todo <= size qm)%nat.
Proof.
  intros Hall Hnd.
  rewrite <- (length_map questionId todo), <- (size_dom (D := gset string) qm).
  apply submseteq_length, NoDup_submseteq; [done|].
  intros id Hid. apply elem_of_elements, elem_of_dom.
  apply list_elem_of_In, in_map_iff in Hid as (a & <- & Ha).
  apply list_elem_of_In in Ha. by eapply Forall_forall in Hall.
Qed.

Lemma resolved_Forall qm todo rl :
  mapM (resolved qm) todo = Some rl ->
  Forall (fun a => is_Some (qm !! questionId a)) todo.
Proof.
  intros H. assert (Hs : is_Some (mapM (resolved qm) todo)) by eauto.
  apply mapM_is_Some in Hs. eapply Forall_impl; [exact Hs|].
  intros a [r Hr]. simpl in Hr. unfold resolved in Hr.
  destruct (qm !! questionId a); [eauto | done].
Qed.

(** C7, refuted as stated.  Four copies of the correct answer to the
    SINGLE_CHOICE question of the three-question quiz pass the schema and
    score 4 out of a total of 3. *)
Lemma score_exceeds_total_on_repeats :
  ~ (forall db quizId data sc,
       Validator.submitAnswersSchema Validator.hexUuid data = true ->
       submitQuizAnswers db quizId data = inr sc ->
       (0 <= score sc <= total sc)%nat).
Proof.
  intros H.
  assert (Hrun : exists sc,
             submitQuizAnswers Sample.db Sample.quizId Sample.repeated = inr sc
             /\ score sc = 4%nat /\ total sc = 3%nat).
  { eexists. split; [vm_compute; reflexivity|]. by split. }
  destruct Hrun as (sc & Hsc & Hscore & Htotal).
  apply H in Hsc; [lia|]. vm_compute. reflexivity.
Qed.

(** C7, amended.  For every call that returns, [total] is the number of
    questions of the quiz, [score] is at least 0 and at most the number of
    submitted answers, and [score] is at most [total] whenever the submitted
    answers name pairwise distinct questions. *)
Theorem score_bounds db quizId data sc :
  submitQuizAnswers db quizId data = inr sc ->
  total sc = length (Prisma.question_findMany db quizId)
  /\ (0 <= score sc <= length (answers data))%nat
  /\ (NoDup (List.map questionId (answers data)) -> (score sc <= total sc)%nat).
Proof.
  intros H. pose proof (aggregate_fields _ _ _ _ H) as (Htotal & _ & Hscore & Hlen & _).
  apply submit_inr_inv in H as (_ & _ & Hrl & _).
  pose proof (countCorrect_le (results sc)) as Hle.
  split; [done|]. split; [lia|]. intros Hnd.
  pose proof (distinct_answers_le _ _ (resolved_Forall _ _ _ Hrl) Hnd) as Hsize.
  pose proof (questionMap_size (Prisma.question_findMany db quizId)) as Hqs.
  unfold quizQuestions in Hsize. lia.
Qed.

(** On the sample quiz: three answers to three distinct questions. *)
Lemma score_bounds_witness :
  exists sc,
    submitQuizAnswers Sample.db Sample.quizId Sample.allCorrect = inr sc
    /\ total sc = 3%nat
    /\ (score sc <= total sc)%nat.
Proof.
  eexists. split; [vm_compute; reflexivity|].
  destruct (score_bounds Sample.db Sample.quizId Sample.allCorrect _ eq_refl)
    as (Htotal & _ & Hle).
  split; [exact Htotal|]. apply Hle.
  apply (bool_decide_unpack _). vm_compute. exact I.
Defined.

(** ** Malformed stored data and mismatched payloads *)

Lemma correctIds_nil question :
  correctIds question = [] <-> correctOptions question = [].
Proof.
  unfold correctIds. by destruct (correctOptions question).
Qed.

Lemma list_to_set_nil_inv (l : list string) :
  (list_to_set l : gset string) = ∅ -> l = [].
Proof.
  destruct l as [|x l]; [done|]. intros H.
  assert (Hx : x ∈ (∅ : gset string)) by (rewrite <- H; set_solver).
  by apply not_elem_of_empty in Hx.
Qed.

(** With no option flagged correct, a MULTIPLE_CHOICE answer is marked
    correct exactly when it selects nothing. *)
Lemma multiple_without_correct question answer :
  q_type question = MULTIPLE_CHOICE ->
  correctOptions question = [] ->
  r_isCorrect (scoreAnswer question answer) = true <-> selectedIds answer = [].
Proof.
  intros Htype Hnil. rewrite (multiple_verdict _ _ Htype).
  apply correctIds_nil in Hnil. rewrite Hnil. simpl. split.
  - apply list_to_set_nil_inv.
  - by intros ->.
Qed.

(** C8, refuted as stated.  A MULTIPLE_CHOICE question stored without any
    correct option violates its invariant, and the answer that sends text
    for it is marked correct. *)
Lemma malformed_multiple_choice_marked_correct :
  ~ (forall db quizId data sc i answer question r,
       submitQuizAnswers db quizId data = inr sc ->
       answers data !! i = Some answer ->
       quizQuestions db quizId !! questionId answer = Some question ->
       results sc !! i = Some r ->
       ~ typeInvariant question ->
       r_isCorrect r = false).
Proof.
  intros H.
  specialize (H Sample.brokenDb Sample.quizId Sample.textForChoice
                {| score := 1; total := 1; percentage := Some 100%Z;
                   results := [mkResult Sample.multiId true (Texts [])] |}
                0%nat (Sample.write Sample.multiId "a")
                (Prisma.withOptions Sample.brokenDb
                   (mkQuestionRow Sample.multiId "Pick some" MULTIPLE_CHOICE Sample.quizId))
                (mkResult Sample.multiId true (Texts []))).
  discriminate H; try at_sample.
  intros Hinv. by apply Hinv.
Qed.

(** C8, amended.  Whatever the stored options of the resolved question, the
    call returns.  A SINGLE_CHOICE question whose number of correct options
    is not one, and a TEXT question without a correct option, get the
    verdict incorrect; a MULTIPLE_CHOICE question without a correct option
    gets the verdict incorrect whenever the answer selects at least one
    option identifier. *)
Theorem malformed_data_degrades db quizId data i answer question :
  is_Some (Prisma.quiz_findUnique db quizId) ->
  Forall (fun a => is_Some (quizQuestions db quizId !! questionId a)) (answers data) ->
  answers data !! i = Some answer ->
  quizQuestions db quizId !! questionId answer = Some question ->
  exists sc r,
    submitQuizAnswers db quizId data = inr sc
    /\ results sc !! i = Some r
    /\ (q_type question = SINGLE_CHOICE ->
        length (List.filter opt_isCorrect (q_options question)) <> 1%nat ->
        r_isCorrect r = false)
    /\ (q_type question = TEXT ->
        List.filter opt_isCorrect (q_options question) = [] ->
        r_isCorrect r = false)
    /\ (q_type question = MULTIPLE_CHOICE ->
        List.filter opt_isCorrect (q_options question) = [] ->
        selectedIds answer <> [] ->
        r_isCorrect r = false).
Proof.
  intros Hquiz Hall Hi Hq.
  destruct (submit_answer _ _ _ _ _ _ Hquiz Hall Hi Hq) as (sc & Hsc & Hr).
  exists sc, (scoreAnswer question answer).
  split; [done|]. split; [done|]. split; [|split].
  - intros Htype Hlen. apply not_true_is_false. intros Hc.
    apply (single_verdict _ _ Htype) in Hc as (sel & c & _ & Hone & _).
    unfold correctOptions in Hone. by rewrite Hone in Hlen.
  - intros Htype Hnil. rewrite (text_result _ _ Htype).
    apply find_correct_None in Hnil. by rewrite Hnil.
  - intros Htype Hnil Hsel. apply not_true_is_false. intros Hc.
    by apply (multiple_without_correct _ _ Htype Hnil) in Hc.
Qed.

(** On the broken store: one option selected for the question without correct options. *)
Lemma malformed_data_degrades_witness :
  exists sc r,
    submitQuizAnswers Sample.brokenDb Sample.quizId
      (mkSubmit [Sample.pick Sample.multiId [Sample.opt "21"]]) = inr sc
    /\ results sc !! 0%nat = Some r
    /\ r_isCorrect r = false.
Proof.
  destruct (malformed_data_degrades Sample.brokenDb Sample.quizId
              (mkSubmit [Sample.pick Sample.multiId [Sample.opt "21"]]) 0%nat
              (Sample.pick Sample.multiId [Sample.opt "21"])
              (Prisma.withOptions Sample.brokenDb
                 (mkQuestionRow Sample.multiId "Pick some" MULTIPLE_CHOICE Sample.quizId)))
    as (sc & r & Hsc & Hr & _ & _ & Hmulti); try at_sample.
  exists sc, r. split; [done|]. split; [done|].
  apply Hmulti; [reflexivity | reflexivity | discriminate].
Defined.




Lemma textPayload_inv answer :
  Validator.textPayload answer = true ->
  JS.truthy (textAnswer answer) = true /\ selectedIds answer = [].
Proof.
  unfold Validator.textPayload, selectedIds.
  destruct (textAnswer answer) as [t|]; [|done].
  rewrite !andb_true_iff. intros [[Ht _] Hsel]. split; [done|].
  destruct (selectedOptionIds answer) as [[|id ids]|]; done.
Qed.

Lemma choicePayload_inv answer :
  Validator.choicePayload answer = true ->
  JS.truthy (textAnswer answer) = false /\ selectedIds answer <> [].
Proof.
  unfold Validator.choicePayload, selectedIds.
  destruct (selectedOptionIds answer) as [[|id ids]|]; try done.
  simpl. intros H. split; [|done]. by destruct (JS.truthy (textAnswer answer)).
Qed.

(** A choice question reads nothing of the answer but the question
    identifier and the selected identifiers. *)
Lemma choice_reads_selection question answer answer' :
  q_type question <> TEXT ->
  questionId answer = questionId answer' ->
  selectedIds answer = selectedIds answer' ->
  scoreAnswer question answer = scoreAnswer question answer'.
Proof.
  intros Htype Hid Hsel. unfold scoreAnswer.
  fold (selectedIds answer). fold (selectedIds answer'). rewrite Hid, Hsel.
  by destruct (q_type question).
Qed.

(** C10.  An answer of the other kind is scored, not rejected: text sent
    for a SINGLE_CHOICE or MULTIPLE_CHOICE question, or option identifiers
    sent for a TEXT question, the question satisfying the invariant of its
    type, gets the result of the answer without payload, and this verdict is
    incorrect. *)
Theorem mismatched_payload_marked_incorrect db quizId data i answer question :
  is_Some (Prisma.quiz_findUnique db quizId) ->
  Forall (fun a => is_Some (quizQuestions db quizId !! questionId a)) (answers data) ->
  answers data !! i = Some answer ->
  quizQuestions db quizId !! questionId answer = Some question ->
  typeInvariant question ->
  (q_type question <> TEXT /\ Validator.textPayload answer = true)
  \/ (q_type question = TEXT /\ Validator.choicePayload answer = true) ->
  exists sc r,
    submitQuizAnswers db quizId data = inr sc
    /\ results sc !! i = Some r
    /\ r = scoreAnswer question (blank answer)
    /\ r_isCorrect r = false.
Proof.
  intros Hquiz Hall Hi Hq Hinv Hkind.
  destruct (submit_answer _ _ _ _ _ _ Hquiz Hall Hi Hq) as (sc & Hsc & Hr).
  exists sc, (scoreAnswer question answer).
  split; [done|]. split; [done|].
  destruct Hkind as [[Htype Hpay] | [Htype Hpay]].
  - apply textPayload_inv in Hpay as [_ Hsel]. split.
    + by apply choice_reads_selection.
    + apply not_true_is_false. intros Hc. unfold typeInvariant in Hinv.
      destruct (q_type question) eqn:Hty; [| |done].
      * apply (single_verdict _ _ Hty) in Hc as (sel & c & Hone & _). congruence.
      * apply (multiple_verdict _ _ Hty) in Hc. rewrite Hsel in Hc. simpl in Hc.
        symmetry in Hc. apply list_to_set_nil_inv, correctIds_nil in Hc. done.
  - apply choicePayload_inv in Hpay as [Htext _].
    rewrite !(text_result _ _ Htype). simpl.
    destruct (List.find opt_isCorrect (q_options question));
      destruct (textAnswer answer) as [[|a t]|]; done.
Qed.

(** On the sample quiz: option identifiers sent for the TEXT question. *)
Lemma mismatched_payload_marked_incorrect_witness :
  exists sc r,
    submitQuizAnswers Sample.db Sample.quizId Sample.mismatched = inr sc
    /\ results sc !! 0%nat = Some r
    /\ r_isCorrect r = false.
Proof.
  destruct (mismatched_payload_marked_incorrect Sample.db Sample.quizId
              Sample.mismatched 0%nat
              (Sample.pick Sample.textId [Sample.opt "31"])
              (Prisma.withOptions Sample.db
                 (mkQuestionRow Sample.textId "What is the capital of France?"
                    TEXT Sample.quizId)))
    as (sc & r & Hsc & Hr & _ & Hfalse); try at_sample.
  - discriminate.
  - by exists sc, r.
Defined.

(** * Further properties *)

(** ** The submission schema *)

(** X1.  A body that [submitAnswersSchema] accepts holds at least one
    answer, and each answer is of exactly one kind: option identifiers
    (at least one) with no text, or text that is not blank and at most 300
    code units long with no option identifier; never both. *)
Theorem accepted_submission_one_kind uuid data :
  Validator.submitAnswersSchema uuid data = true ->
  answers data <> []
  /\ Forall (fun a =>
               (selectedIds a <> [] /\ JS.truthy (textAnswer a) = false)
               \/ (selectedIds a = []
                   /\ exists t, textAnswer a = Some t /\ JS.trim t <> EmptyString
                                /\ (String.length t <= 300)%nat))
            (answers data)
  /\ Forall (fun a => ~ (selectedIds a <> [] /\ JS.truthy (textAnswer a) = true))
            (answers data).
Proof.
  unfold Validator.submitAnswersSchema. rewrite !andb_true_iff, !forallb_forall.
  intros [[Hfields Hmin] Hkind]. split; [|split].
  - intros Hnil. rewrite Hnil in Hmin. done.
  - apply Forall_forall. intros a Ha. apply list_elem_of_In in Ha.
    specialize (Hkind a Ha). specialize (Hfields a Ha).
    apply orb_true_iff in Hkind as [Hc | Ht].
    + left. apply choicePayload_inv in Hc as [? ?]. done.
    + right. pose proof (textPayload_inv a Ht) as [_ Hsel]. split; [done|].
      unfold Validator.textPayload in Ht. unfold Validator.answerFields in Hfields.
      destruct (textAnswer a) as [t|]; [|done].
      exists t. rewrite !andb_true_iff in Ht, Hfields.
      destruct Ht as [[_ Hlen] _]. destruct Hfields as [_ Hmax].
      split; [done|]. split.
      * intros Hblank. rewrite Hblank in Hlen. done.
      * by apply Nat.leb_le.
  - apply Forall_forall. intros a Ha. apply list_elem_of_In in Ha.
    specialize (Hkind a Ha). intros [Hsel Htext].
    apply orb_true_iff in Hkind as [Hc | Ht].
    + apply choicePayload_inv in Hc as [? ?]. congruence.
    + apply textPayload_inv in Ht as [? ?]. done.
Qed.

(** At the request of the test-suite. *)
Lemma accepted_submission_one_kind_witness :
  answers Sample.allCorrect <> []
  /\ Forall (fun a => ~ (selectedIds a <> [] /\ JS.truthy (textAnswer a) = true))
            (answers Sample.allCorrect).
Proof.
  destruct (accepted_submission_one_kind Validator.hexUuid Sample.allCorrect)
    as (Hne & _ & Hnot); [vm_compute; reflexivity|]. by split.
Defined.

(** ** Answers that repeat what the question stores *)

Lemma find_correct_Some question :
  correctOptions question <> [] ->
  exists c, List.find opt_isCorrect (q_options question) = Some c.
Proof.
  intros H. destruct (List.find opt_isCorrect (q_options question)) as [c|] eqn:Hf.
  - by exists c.
  - by apply find_correct_None in Hf.
Qed.

Lemma model_answer_verdict question :
  typeInvariant question ->
  (q_type question = TEXT ->
   forall c, List.find opt_isCorrect (q_options question) = Some c ->
             opt_text c <> EmptyString) ->
  r_isCorrect (scoreAnswer question (modelAnswer question)) = true.
Proof.
  intros Hinv Htext. unfold typeInvariant, modelAnswer in *.
  destruct (q_type question) eqn:Hty.
  - apply (single_verdict _ _ Hty).
    destruct (correctOptions question) as [|c [|]] eqn:Hc; try done.
    exists (opt_id c), c. unfold selectedIds, correctIds. simpl. by rewrite Hc.
  - by apply (multiple_verdict _ _ Hty).
  - destruct (find_correct_Some _ Hinv) as [c Hc].
    rewrite (text_result _ _ Hty), Hc. simpl.
    specialize (Htext eq_refl c Hc).
    destruct (opt_text c) as [|a t] eqn:Ht; [done|]. simpl.
    apply String.eqb_refl.
Qed.

(** X2.  For a question that satisfies the invariant of its type (and, for
    TEXT, whose correct text is not empty), the answer that repeats the
    stored correct options - their identifiers for a choice question, the
    text for a TEXT question - is marked correct, under the identifier of
    the question. *)
Theorem model_answer_marked_correct question :
  typeInvariant question ->
  (q_type question = TEXT ->
   forall c, List.find opt_isCorrect (q_options question) = Some c ->
             opt_text c <> EmptyString) ->
  r_isCorrect (scoreAnswer question (modelAnswer question)) = true
  /\ r_questionId (scoreAnswer question (modelAnswer question)) = q_id question.
Proof.
  intros Hinv Htext. split; [by apply model_answer_verdict|].
  rewrite scoreAnswer_questionId. unfold modelAnswer. by destruct (q_type question).
Qed.

(** On the three questions of the sample quiz. *)
Lemma model_answer_marked_correct_witness :
  Forall (fun q => r_isCorrect (scoreAnswer q (modelAnswer q)) = true)
         (Prisma.question_findMany Sample.db Sample.quizId).
Proof.
  constructor; [|constructor; [|constructor; [|constructor]]].
  - apply model_answer_marked_correct; [reflexivity | discriminate].
  - apply model_answer_marked_correct; [discriminate | discriminate].
  - apply model_answer_marked_correct; [discriminate|].
    intros _ c Hc. vm_compute in Hc. inversion Hc. discriminate.
Defined.

Lemma questionMap_lookup_last qs q :
  questionMap (qs ++ [q]) !! q_id q = Some q.
Proof. unfold questionMap. rewrite foldl_app. simpl. apply lookup_insert_eq. Qed.

Lemma questionMap_lookup qs q :
  NoDup (List.map q_id qs) -> q ∈ qs -> questionMap qs !! q_id q = Some q.
Proof.
  induction qs as [|q' qs IH] using rev_ind; intros Hnd Hin.
  - by apply elem_of_nil in Hin.
  - rewrite map_app in Hnd. simpl in Hnd.
    apply NoDup_app in Hnd as (Hnd & Hdisj & _).
    apply elem_of_app in Hin as [Hin | Hin].
    + unfold questionMap in *. rewrite foldl_app. simpl.
      rewrite lookup_insert_ne; [by apply IH|].
      intros Heq. apply (Hdisj (q_id q)).
      * apply list_elem_of_In, in_map, list_elem_of_In, Hin.
      * rewrite Heq. by left.
    + apply list_elem_of_singleton in Hin as ->. apply questionMap_lookup_last.
Qed.

Lemma countCorrect_all rs :
  Forall (fun r => r_isCorrect r = true) rs -> countCorrect rs = length rs.
Proof.
  unfold countCorrect. induction 1 as [|r l Hr _ IH]; simpl; [done|].
  rewrite Hr. simpl. by rewrite IH.
Qed.

Lemma modelAnswer_questionId q : questionId (modelAnswer q) = q_id q.
Proof. unfold modelAnswer. by destruct (q_type q). Qed.

Lemma model_answers_resolved (m : gmap string Question) (l : list Question) :
  (forall q, q ∈ l -> m !! q_id q = Some q) ->
  mapM (resolved m) (List.map modelAnswer l)
  = Some (List.map (fun q => scoreAnswer q (modelAnswer q)) l).
Proof.
  intros Hsub. apply mapM_Some.
  induction l as [|q l IH]; simpl; constructor.
  - unfold resolved. rewrite modelAnswer_questionId, (Hsub q) by (by left). done.
  - apply IH. intros q' Hq'. apply Hsub. by right.
Qed.

(** X3.  Full marks are reachable: on a quiz whose questions have pairwise
    distinct identifiers and satisfy their invariants (correct texts not
    empty), the submission of the model answer to every question returns
    with every result correct and [score = total], the number of
    questions. *)
Theorem model_submission_full_marks db quizId :
  is_Some (Prisma.quiz_findUnique db quizId) ->
  Prisma.question_findMany db quizId <> [] ->
  NoDup (List.map q_id (Prisma.question_findMany db quizId)) ->
  Forall (fun q => typeInvariant q
                   /\ (q_type q = TEXT ->
                       forall c, List.find opt_isCorrect (q_options q) = Some c ->
                                 opt_text c <> EmptyString))
         (Prisma.question_findMany db quizId) ->
  exists sc,
    submitQuizAnswers db quizId
      (mkSubmit (List.map modelAnswer (Prisma.question_findMany db quizId))) = inr sc
    /\ score sc = total sc
    /\ total sc = length (Prisma.question_findMany db quizId)
    /\ Forall (fun r => r_isCorrect r = true) (results sc).
Proof.
  intros Hquiz Hne Hnd Hinv.
  set (qs := Prisma.question_findMany db quizId) in *.
  assert (Hrl : mapM (resolved (quizQuestions db quizId)) (List.map modelAnswer qs)
                = Some (List.map (fun q => scoreAnswer q (modelAnswer q)) qs)).
  { apply model_answers_resolved. intros q Hq. unfold quizQuestions. fold qs.
    by apply questionMap_lookup. }
  eexists. split; [by apply submit_resolved|]. simpl.
  assert (Hall : Forall (fun r => r_isCorrect r = true)
                   (List.map (fun q => scoreAnswer q (modelAnswer q)) qs)).
  { apply List.Forall_map. eapply Forall_impl; [exact Hinv|].
    intros q [H1 H2]. by apply model_answer_verdict. }
  split; [|split; [done|exact Hall]].
  rewrite (countCorrect_all _ Hall). apply length_map.
Qed.

(** On the sample quiz: three model answers, score 3 of 3. *)
Lemma model_submission_full_marks_witness :
  exists sc,
    submitQuizAnswers Sample.db Sample.quizId
      (mkSubmit (List.map modelAnswer (Prisma.question_findMany Sample.db Sample.quizId)))
    = inr sc
    /\ score sc = 3%nat /\ total sc = 3%nat.
Proof.
  destruct (model_submission_full_marks Sample.db Sample.quizId)
    as (sc & Hsc & Hscore & Htotal & _).
  - vm_compute. eauto.
  - discriminate.
  - apply (bool_decide_unpack _). vm_compute. exact I.
  - repeat constructor; try discriminate.
    intros _ c Hc. vm_compute in Hc. inversion Hc. discriminate.
  - exists sc. split; [done|]. rewrite Hscore, Htotal. by split.
Defined.

(** ** The percentage on quizzes of up to a hundred questions *)

Lemma elem_of_scorePairs bound s t :
  (1 <= t <= bound)%nat -> (s <= t)%nat -> In (s, t) (scorePairs bound).
Proof.
  intros Ht Hs. unfold scorePairs. apply in_flat_map. exists t. split.
  - apply in_seq. lia.
  - apply (in_map (fun s0 => (s0, t))). apply in_seq. lia.
Qed.

(** X4.  For every quiz of 1 to 100 questions and every score up to the
    total, [percentage] is an integer, and it is [100 * score / total]
    rounded half up in exact arithmetic, with two exceptions, 23 of 40 and
    46 of 80, where the binary64 product falls below 57.5 and the
    percentage is 57. *)
Theorem percentage_up_to_100 s t :
  (1 <= t <= 100)%nat -> (s <= t)%nat ->
  percentageOf s t
  = Some (if bool_decide ((s, t) ∈ [(23, 40); (46, 80)]%nat) then 57%Z
          else exactPercentage s t).
Proof.
  intros Ht Hs.
  assert (Hall : forallb
                   (fun '(s, t) =>
                      bool_decide
                        (percentageOf s t
                         = Some (if bool_decide ((s, t) ∈ [(23, 40); (46, 80)]%nat)
                                 then 57%Z else exactPercentage s t)))
                   (scorePairs 100) = true)
    by (vm_compute; reflexivity).
  rewrite forallb_forall in Hall.
  specialize (Hall (s, t) (elem_of_scorePairs 100 s t Ht Hs)).
  by apply bool_decide_eq_true in Hall.
Qed.

(** One of three: 33 per cent. *)
Lemma percentage_up_to_100_witness : percentageOf 1 3 = Some 33%Z.
Proof. rewrite (percentage_up_to_100 1 3) by lia. reflexivity. Defined.

(** ** The two read views *)

Lemma learnerQuestion_learnerOf db r :
  learnerQuestion db r = learnerOf (Prisma.withOptions db r).
Proof. reflexivity. Qed.

Lemma getQuizQuestions_learnerOf db quizId :
  getQuizQuestions db quizId
  = match Prisma.quiz_findUnique db quizId with
    | None => inl quizNotFound
    | Some _ =>
        inr (List.map learnerOf
               (List.map (Prisma.withOptions db) (Prisma.orderById (Prisma.rowsOf db quizId))))
    end.
Proof.
  unfold getQuizQuestions. destruct (Prisma.quiz_findUnique db quizId); [|done].
  f_equal. rewrite List.map_map. apply List.map_ext. intros r.
  apply learnerQuestion_learnerOf.
Qed.

(** X5.  The learner view is the admin view with the correctness flags and
    the owning references dropped: the same questions in the same order,
    each with the same options in the same order; and the two calls fail
    together, with the same error. *)
Theorem learner_view_projects_admin_view db quizId :
  match QuestionAdmin.getQuizQuestionsWithAnswers db quizId with
  | inr qs => getQuizQuestions db quizId = inr (List.map learnerOf qs)
  | inl e => getQuizQuestions db quizId = inl e
  end.
Proof.
  rewrite getQuizQuestions_learnerOf.
  unfold QuestionAdmin.getQuizQuestionsWithAnswers.
  by destruct (Prisma.quiz_findUnique db quizId).
Qed.

Lemma rowsOf_quizId db quizId r :
  In r (Prisma.rowsOf db quizId) -> row_quizId r = quizId.
Proof.
  unfold Prisma.rowsOf. intros H. apply filter_In in H as [_ H].
  by apply String.eqb_eq.
Qed.

(** X6.  The admin view of an existing quiz lists its questions in
    ascending order of identifier; it is a permutation of the questions
    that the scoring reads, every one of them belongs to the quiz, and the
    [total] of any submission that returns is the length of the view. *)
Theorem admin_view_sorted_and_complete db quizId qs :
  QuestionAdmin.getQuizQuestionsWithAnswers db quizId = inr qs ->
  Sorted String.le (List.map q_id qs)
  /\ qs ≡ₚ Prisma.question_findMany db quizId
  /\ Forall (fun q => q_quizId q = quizId) qs
  /\ forall data sc, submitQuizAnswers db quizId data = inr sc -> total sc = length qs.
Proof.
  unfold QuestionAdmin.getQuizQuestionsWithAnswers.
  destruct (Prisma.quiz_findUnique db quizId); [|done].
  intros H. inversion H; subst; clear H.
  assert (Hperm : List.map (Prisma.withOptions db) (Prisma.orderById (Prisma.rowsOf db quizId))
                  ≡ₚ Prisma.question_findMany db quizId).
  { unfold Prisma.question_findMany, Prisma.orderById.
    apply Permutation_map, merge_sort_Permutation. }
  split; [|split; [exact Hperm|split]].
  - rewrite List.map_map. simpl. unfold Prisma.orderById.
    set (R := fun a b : QuestionRow => String.le (row_id a) (row_id b)).
    assert (Htotal : Total R).
    { intros a b. unfold R. apply String.le_total. }
    pose proof (Sorted_merge_sort R (Prisma.rowsOf db quizId)) as Hs.
    induction Hs as [|r l _ IH Hhd]; simpl; constructor; [exact IH|].
    destruct Hhd; simpl; constructor. done.
  - rewrite Hperm. unfold Prisma.question_findMany.
    apply List.Forall_map, Forall_forall. intros r Hr. simpl.
    apply list_elem_of_In in Hr. by eapply rowsOf_quizId.
  - intros data sc Hsc. apply aggregate_fields in Hsc as (Htotal & _).
    rewrite Htotal. symmetry. by apply Permutation_length.
Qed.

(** On the sample quiz: three questions. *)
Lemma admin_view_sorted_and_complete_witness :
  exists qs,
    QuestionAdmin.getQuizQuestionsWithAnswers Sample.db Sample.quizId = inr qs
    /\ Sorted String.le (List.map q_id qs)
    /\ length qs = 3%nat.
Proof.
  eexists. split; [vm_compute; reflexivity|].
  destruct (admin_view_sorted_and_complete Sample.db Sample.quizId _ eq_refl)
    as (Hsorted & _). split; [exact Hsorted | reflexivity].
Defined.

(** X7.  On a quiz that exists and has no question, the two views return
    the empty list, while every submission is refused with the bad-request
    error "No questions found for this quiz", whatever it holds. *)
Theorem empty_quiz_views_and_submission db quizId :
  is_Some (Prisma.quiz_findUnique db quizId) ->
  Prisma.rowsOf db quizId = [] ->
  getQuizQuestions db quizId = inr []
  /\ QuestionAdmin.getQuizQuestionsWithAnswers db quizId = inr []
  /\ forall data,
       submitQuizAnswers db quizId data
       = inl (mkAppError "No questions found for this quiz" StatusCodes.BAD_REQUEST).
Proof.
  intros [quiz Hquiz] Hrows.
  unfold getQuizQuestions, QuestionAdmin.getQuizQuestionsWithAnswers, submitQuizAnswers,
    Prisma.question_findMany.
  rewrite Hquiz, Hrows. done.
Qed.

(** On a store with one quiz and nothing else. *)
Lemma empty_quiz_views_and_submission_witness :
  getQuizQuestions (mkDb [mkQuiz Sample.quizId "Empty"] [] []) Sample.quizId = inr []
  /\ submitQuizAnswers (mkDb [mkQuiz Sample.quizId "Empty"] [] []) Sample.quizId
       Sample.allCorrect = inl noQuestions.
Proof.
  destruct (empty_quiz_views_and_submission
              (mkDb [mkQuiz Sample.quizId "Empty"] [] []) Sample.quizId)
    as (Hl & _ & Hs); [vm_compute; eauto | reflexivity |].
  split; [exact Hl | apply Hs].
Defined.

(** ** Lists of rows *)

Lemma find_app_split {A} (f : A -> bool) l1 l2 :
  List.find f (l1 ++ l2)
  = match List.find f l1 with
    | Some x => Some x
    | None => List.find f l2
    end.
Proof. induction l1 as [|x l1 IH]; simpl; [done|]. by destruct (f x). Qed.

Lemma filter_all {A} (f : A -> bool) l :
  Forall (fun x => f x = true) l -> List.filter f l = l.
Proof. induction 1 as [|x l Hx _ IH]; simpl; [done|]. by rewrite Hx, IH. Qed.

Lemma filter_none {A} (f : A -> bool) l :
  Forall (fun x => f x = false) l -> List.filter f l = [].
Proof. induction 1 as [|x l Hx _ IH]; simpl; [done|]. by rewrite Hx. Qed.

Lemma find_none {A} (f : A -> bool) l :
  Forall (fun x => f x = false) l -> List.find f l = None.
Proof. induction 1 as [|x l Hx _ IH]; simpl; [done|]. by rewrite Hx. Qed.

Lemma newOptions_questionId qid oid options :
  Forall (fun o => opt_questionId o = qid) (PrismaWrite.newOptions qid oid options).
Proof.
  unfold PrismaWrite.newOptions. revert oid.
  induction options as [|o l IH]; intros oid; simpl; constructor; [done|].
  apply (IH (oid ∘ S)).
Qed.

Lemma newOptions_payload qid oid options :
  List.map (fun o => (opt_text o, opt_isCorrect o)) (PrismaWrite.newOptions qid oid options)
  = List.map (fun o => (oi_text o, oi_isCorrect o)) options.
Proof.
  unfold PrismaWrite.newOptions. revert oid.
  induction options as [|o l IH]; intros oid; simpl; [done|].
  f_equal. apply (IH (oid ∘ S)).
Qed.

Lemma newOptions_correct qid oid options :
  List.map opt_isCorrect (List.filter opt_isCorrect (PrismaWrite.newOptions qid oid options))
  = List.map oi_isCorrect (List.filter oi_isCorrect options).
Proof.
  unfold PrismaWrite.newOptions. revert oid.
  induction options as [|o l IH]; intros oid; simpl; [done|].
  destruct (oi_isCorrect o) eqn:Ho; simpl; rewrite ?Ho; [f_equal|]; apply (IH (oid ∘ S)).
Qed.

Lemma newOptions_length qid oid options :
  length (PrismaWrite.newOptions qid oid options) = length options.
Proof. unfold PrismaWrite.newOptions. apply length_imap. Qed.

(** The options of a question after new ones were appended for [qid]. *)
Lemma optionsOf_append db table qid oid options id :
  optionTable table = optionTable db ++ PrismaWrite.newOptions qid oid options ->
  Prisma.optionsOf table id
  = Prisma.optionsOf db id
    ++ (if String.eqb qid id then PrismaWrite.newOptions qid oid options else []).
Proof.
  intros Htable. unfold Prisma.optionsOf. rewrite Htable, List.filter_app. f_equal.
  pose proof (newOptions_questionId qid oid options) as Hq.
  destruct (String.eqb qid id) eqn:Heq.
  - apply String.eqb_eq in Heq as ->. apply filter_all.
    eapply Forall_impl; [exact Hq|]. intros o ->. apply String.eqb_refl.
  - apply filter_none. eapply Forall_impl; [exact Hq|]. intros o ->. exact Heq.
Qed.

Lemma optionsOf_fresh db qid :
  Forall (fun o => opt_questionId o <> qid) (optionTable db) ->
  Prisma.optionsOf db qid = [].
Proof.
  intros H. apply filter_none. eapply Forall_impl; [exact H|].
  intros o Ho. by apply String.eqb_neq.
Qed.

Lemma question_findUnique_id db id r :
  PrismaWrite.question_findUnique db id = Some r -> row_id r = id /\ In r (questionTable db).
Proof.
  unfold PrismaWrite.question_findUnique. intros H.
  apply find_some in H as [Hin Heq]. split; [by apply String.eqb_eq | done].
Qed.

(** ** Creating a question *)

Lemma createQuestion_inv db qid oid quizId data db' q :
  QuestionAdmin.createQuestion db qid oid quizId data = inr (db', q) ->
  is_Some (Prisma.quiz_findUnique db quizId)
  /\ db' = PrismaWrite.question_create db qid oid quizId data
  /\ q = Prisma.withOptions db'
           (mkQuestionRow qid (cq_text data) (cq_type data) quizId).
Proof.
  unfold QuestionAdmin.createQuestion.
  destruct (Prisma.quiz_findUnique db quizId) as [quiz|]; [|done].
  intros H. inversion H; subst. eauto.
Qed.

Lemma created_question db qid oid quizId data db' q :
  freshQuestion db qid ->
  QuestionAdmin.createQuestion db qid oid quizId data = inr (db', q) ->
  q = mkQuestion qid (cq_text data) (cq_type data) quizId
        (PrismaWrite.newOptions qid oid (cq_options data)).
Proof.
  intros [_ Hopts] H. apply createQuestion_inv in H as (_ & -> & ->).
  unfold Prisma.withOptions. simpl. f_equal.
  rewrite (optionsOf_append db _ qid oid (cq_options data)) by reflexivity.
  by rewrite (optionsOf_fresh _ _ Hopts), String.eqb_refl.
Qed.

Lemma getQuestionById_other db db' qid oid options row other :
  quizTable db' = quizTable db ->
  questionTable db' = questionTable db ++ [row] ->
  row_id row = qid ->
  optionTable db' = optionTable db ++ PrismaWrite.newOptions qid oid options ->
  other <> qid ->
  QuestionAdmin.getQuestionById db' other = QuestionAdmin.getQuestionById db other.
Proof.
  intros Hquiz Hrows Hrow Hopts Hne.
  unfold QuestionAdmin.getQuestionById, PrismaWrite.question_findUnique.
  rewrite Hrows, find_app_split. simpl.
  replace (String.eqb (row_id row) other) with false
    by (symmetry; apply String.eqb_neq; congruence).
  destruct (List.find _ (questionTable db)) as [r|] eqn:Hr; [|done].
  apply find_some in Hr as [_ Hid]. apply String.eqb_eq in Hid.
  unfold Prisma.withOptions, Prisma.quiz_findUnique. rewrite Hquiz. do 3 f_equal.
  rewrite (optionsOf_append db db' qid oid options) by done.
  replace (String.eqb qid (row_id r)) with false
    by (symmetry; apply String.eqb_neq; congruence).
  apply app_nil_r.
Qed.

(** X8.  Create, then read back.  When the quiz exists and the identifier
    given to the question is new, [createQuestion] returns the question with
    the submitted text and type and one option per submitted option, in the
    same order with the same texts and flags; [getQuestionById] on the new
    store returns that question with its quiz, and what it returns for
    every other identifier is unchanged. *)
Theorem create_then_get db qid oid quizId data db' q :
  freshQuestion db qid ->
  QuestionAdmin.createQuestion db qid oid quizId data = inr (db', q) ->
  q_id q = qid /\ q_text q = cq_text data /\ q_type q = cq_type data
  /\ q_quizId q = quizId
  /\ List.map (fun o => (opt_text o, opt_isCorrect o)) (q_options q)
     = List.map (fun o => (oi_text o, oi_isCorrect o)) (cq_options data)
  /\ (exists quiz,
        Prisma.quiz_findUnique db quizId = Some quiz
        /\ QuestionAdmin.getQuestionById db' qid
           = inr {| qd_question := q; qd_quiz := Some quiz |})
  /\ forall other, other <> qid ->
       QuestionAdmin.getQuestionById db' other = QuestionAdmin.getQuestionById db other.
Proof.
  intros Hfresh H. pose proof (created_question _ _ _ _ _ _ _ Hfresh H) as Hq.
  pose proof (createQuestion_inv _ _ _ _ _ _ _ H) as ([quiz Hquiz] & Hdb & Hq').
  split; [by rewrite Hq|]. split; [by rewrite Hq|]. split; [by rewrite Hq|].
  split; [by rewrite Hq|]. split; [rewrite Hq; apply newOptions_payload|]. split.
  - exists quiz. split; [done|].
    unfold QuestionAdmin.getQuestionById, PrismaWrite.question_findUnique.
    rewrite Hdb. simpl. rewrite find_app_split.
    destruct Hfresh as [Hrows _].
    rewrite find_none.
    + simpl. rewrite String.eqb_refl. rewrite <- Hdb, <- Hq'.
      unfold Prisma.quiz_findUnique in *. rewrite Hdb. simpl. by rewrite Hquiz.
    + eapply Forall_impl; [exact Hrows|]. intros r Hr. by apply String.eqb_neq.
  - intros other Hne. rewrite Hdb.
    by eapply getQuestionById_other.
Qed.

(** A fourth question for the sample quiz. *)
Lemma create_then_get_witness :
  exists db' q,
    QuestionAdmin.createQuestion Sample.db Fixture.newId Fixture.newOptionId
      Sample.quizId Fixture.planet = inr (db', q)
    /\ List.map (fun o => (opt_text o, opt_isCorrect o)) (q_options q)
       = [("Mars", false); ("Jupiter", true)]%string.
Proof.
  destruct (QuestionAdmin.createQuestion Sample.db Fixture.newId Fixture.newOptionId
              Sample.quizId Fixture.planet) as [e|[db' q]] eqn:H;
    [vm_compute in H; discriminate|].
  exists db', q. split; [done|].
  assert (Hfresh : freshQuestion Sample.db Fixture.newId)
    by (split; repeat constructor; discriminate).
  destruct (create_then_get Sample.db Fixture.newId Fixture.newOptionId Sample.quizId
              Fixture.planet db' q Hfresh H)
    as (_ & _ & _ & _ & Hopts & _).
  exact Hopts.
Defined.

Lemma rowsOf_create db qid oid quizId data other :
  Prisma.rowsOf (PrismaWrite.question_create db qid oid quizId data) other
  = Prisma.rowsOf db other
    ++ (if String.eqb quizId other
        then [mkQuestionRow qid (cq_text data) (cq_type data) quizId] else []).
Proof.
  unfold Prisma.rowsOf. simpl. rewrite List.filter_app. simpl.
  by destruct (String.eqb quizId other).
Qed.

Lemma withOptions_create db qid oid quizId data r :
  row_id r <> qid ->
  Prisma.withOptions (PrismaWrite.question_create db qid oid quizId data) r
  = Prisma.withOptions db r.
Proof.
  intros Hne. unfold Prisma.withOptions. f_equal.
  rewrite (optionsOf_append db _ qid oid (cq_options data)) by reflexivity.
  replace (String.eqb qid (row_id r)) with false
    by (symmetry; apply String.eqb_neq; congruence).
  apply app_nil_r.
Qed.

Lemma findMany_create db qid oid quizId data db' q other :
  freshQuestion db qid ->
  QuestionAdmin.createQuestion db qid oid quizId data = inr (db', q) ->
  Prisma.question_findMany db' other
  = Prisma.question_findMany db other ++ (if String.eqb quizId other then [q] else []).
Proof.
  intros Hfresh H. pose proof (createQuestion_inv _ _ _ _ _ _ _ H) as (_ & Hdb & Hq).
  unfold Prisma.question_findMany. rewrite Hdb, rowsOf_create, map_app.
  f_equal.
  - apply map_ext_in. intros r Hr. apply withOptions_create.
    destruct Hfresh as [Hrows _]. unfold Prisma.rowsOf in Hr.
    apply filter_In in Hr as [Hr _]. rewrite Forall_forall in Hrows.
    apply Hrows. by apply list_elem_of_In.
  - destruct (String.eqb quizId other); [|done]. simpl. by rewrite Hq, Hdb.
Qed.

Lemma questionMap_snoc qs q :
  questionMap (qs ++ [q]) = <[q_id q := q]> (questionMap qs).
Proof. unfold questionMap. by rewrite foldl_app. Qed.

Lemma questionMap_lookup_Some qs id q :
  questionMap qs !! id = Some q -> q ∈ qs /\ q_id q = id.
Proof.
  induction qs as [|q' qs IH] using rev_ind.
  - rewrite questionMap_nil, lookup_empty. done.
  - rewrite questionMap_snoc. destruct (decide (q_id q' = id)) as [Heq|Hne].
    + rewrite <- Heq, lookup_insert_eq. intros [= ->]. split; [|done].
      apply elem_of_app. right. by left.
    + rewrite lookup_insert_ne by done. intros H. apply IH in H as [Hin Hid].
      split; [|done]. apply elem_of_app. by left.
Qed.

Lemma findMany_row_id db quizId q :
  q ∈ Prisma.question_findMany db quizId ->
  exists r, In r (questionTable db) /\ row_id r = q_id q.
Proof.
  unfold Prisma.question_findMany. intros H.
  apply list_elem_of_In, in_map_iff in H as (r & <- & Hr).
  unfold Prisma.rowsOf in Hr. apply filter_In in Hr as [Hr _]. by exists r.
Qed.

(** X9.  A question added to a quiz changes no verdict on the others: when
    the identifier is new, every submission that returned before returns
    afterwards with the same results and the same score, and a total larger
    by one; the questions of the other quizzes are unchanged. *)
Theorem create_raises_total_only db qid oid quizId data db' q :
  freshQuestion db qid ->
  QuestionAdmin.createQuestion db qid oid quizId data = inr (db', q) ->
  (forall other, other <> quizId ->
     Prisma.question_findMany db' other = Prisma.question_findMany db other)
  /\ forall answersData sc,
       submitQuizAnswers db quizId answersData = inr sc ->
       exists sc',
         submitQuizAnswers db' quizId answersData = inr sc'
         /\ results sc' = results sc
         /\ score sc' = score sc
         /\ total sc' = S (total sc).
Proof.
  intros Hfresh H. split.
  - intros other Hne. rewrite (findMany_create _ _ _ _ _ _ _ other Hfresh H).
    replace (String.eqb quizId other) with false
      by (symmetry; apply String.eqb_neq; congruence).
    apply app_nil_r.
  - intros answersData sc Hsc.
    pose proof (submit_inr_inv _ _ _ _ Hsc) as (Hquiz & Hne & Hrl & Hscore & Htotal & _).
    pose proof (createQuestion_inv _ _ _ _ _ _ _ H) as (_ & Hdb & _).
    pose proof (findMany_create _ _ _ _ _ _ _ quizId Hfresh H) as Hmany.
    rewrite String.eqb_refl in Hmany.
    assert (Hrl' : mapM (resolved (quizQuestions db' quizId)) (answers answersData)
                   = Some (results sc)).
    { apply mapM_Some. apply mapM_Some in Hrl.
      eapply Forall2_impl; [exact Hrl|]. intros a r Hr.
      unfold resolved, quizQuestions in *. rewrite Hmany, questionMap_snoc.
      destruct (questionMap (Prisma.question_findMany db quizId) !! questionId a)
        as [qa|] eqn:Hqa; [|done].
      rewrite lookup_insert_ne; [by rewrite Hqa|].
      intros Heq. apply questionMap_lookup_Some in Hqa as [Hin Hid].
      apply findMany_row_id in Hin as (row & Hrow & Hrid).
      pose proof (created_question _ _ _ _ _ _ _ Hfresh H) as Hq.
      destruct Hfresh as [Hrows _]. rewrite Forall_forall in Hrows.
      apply (Hrows row); [by apply list_elem_of_In|].
      rewrite Hq in Heq. simpl in Heq. congruence. }
    eexists. split.
    + apply submit_resolved; [| |exact Hrl'].
      * unfold Prisma.quiz_findUnique in *. by rewrite Hdb.
      * rewrite Hmany. by destruct (Prisma.question_findMany db quizId).
    + simpl. split; [done|]. split; [done|].
      rewrite Hmany, length_app, Htotal. simpl. lia.
Qed.

(** Adding a fourth question to the sample quiz: the full-marks submission
    keeps its score of 3, out of 4. *)
Lemma create_raises_total_only_witness :
  exists db' q sc',
    QuestionAdmin.createQuestion Sample.db Fixture.newId Fixture.newOptionId
      Sample.quizId Fixture.planet = inr (db', q)
    /\ submitQuizAnswers db' Sample.quizId Sample.allCorrect = inr sc'
    /\ score sc' = 3%nat /\ total sc' = 4%nat.
Proof.
  destruct (QuestionAdmin.createQuestion Sample.db Fixture.newId Fixture.newOptionId
              Sample.quizId Fixture.planet) as [e|[db' q]] eqn:H;
    [vm_compute in H; discriminate|].
  assert (Hfresh : freshQuestion Sample.db Fixture.newId)
    by (split; repeat constructor; discriminate).
  destruct (create_raises_total_only Sample.db Fixture.newId Fixture.newOptionId
              Sample.quizId Fixture.planet db' q Hfresh H) as (_ & Hsub).
  assert (Hbefore : exists sc, submitQuizAnswers Sample.db Sample.quizId Sample.allCorrect
                               = inr sc /\ score sc = 3%nat /\ total sc = 3%nat)
    by (eexists; split; [vm_compute; reflexivity | by split]).
  destruct Hbefore as (sc & Hsc & Hscore & Htotal).
  destruct (Hsub Sample.allCorrect sc Hsc) as (sc' & Hsc' & _ & Hscore' & Htotal').
  exists db', q, sc'. split; [done|]. split; [exact Hsc'|].
  split; [congruence | congruence].
Defined.

(** ** From the creation schema to the scoring *)

Lemma created_correct_count db qid oid quizId data db' q :
  freshQuestion db qid ->
  QuestionAdmin.createQuestion db qid oid quizId data = inr (db', q) ->
  length (correctOptions q) = length (List.filter oi_isCorrect (cq_options data)).
Proof.
  intros Hfresh H. rewrite (created_question _ _ _ _ _ _ _ Hfresh H).
  unfold correctOptions. simpl.
  rewrite <- (length_map opt_isCorrect), newOptions_correct. apply length_map.
Qed.

(** X10.  A SINGLE_CHOICE or MULTIPLE_CHOICE body that
    [createQuestionSchema] accepts, once created under a new identifier,
    is a stored question that satisfies the invariant of its type, has at
    least one option, and has texts within the bounds of the schema. *)
Theorem accepted_choice_question_is_well_formed db qid oid quizId data db' q :
  QuestionValidator.createQuestionSchema data = true ->
  cq_type data <> TEXT ->
  freshQuestion db qid ->
  QuestionAdmin.createQuestion db qid oid quizId data = inr (db', q) ->
  typeInvariant q
  /\ q_options q <> []
  /\ (1 <= String.length (q_text q) <= 1000)%nat
  /\ Forall (fun o => (1 <= String.length (opt_text o) <= 500)%nat) (q_options q).
Proof.
  intros Hschema Htype Hfresh H.
  pose proof (created_correct_count _ _ _ _ _ _ _ Hfresh H) as Hcount.
  pose proof (created_question _ _ _ _ _ _ _ Hfresh H) as Hq.
  unfold QuestionValidator.createQuestionSchema in Hschema.
  rewrite !andb_true_iff in Hschema.
  destruct Hschema as [[[[Hmin Hmax] Hopts] Hlen] Href].
  apply Nat.leb_le in Hmin, Hmax, Hlen.
  split; [|split; [|split]].
  - unfold typeInvariant. replace (q_type q) with (cq_type data) by (by rewrite Hq).
    unfold QuestionValidator.refinement in Href.
    destruct (cq_type data); cbn [QuestionType_eqb] in Href; [| |done].
    + apply Nat.eqb_eq in Href. congruence.
    + apply Nat.leb_le in Href. intros Hnil. rewrite Hnil in Hcount. simpl in Hcount. lia.
  - intros Hnil. rewrite Hq in Hnil. simpl in Hnil.
    apply (f_equal length) in Hnil. rewrite newOptions_length in Hnil. simpl in Hnil. lia.
  - rewrite Hq. simpl. lia.
  - rewrite Hq. simpl.
    assert (Hpay : Forall (fun p : string * bool => (1 <= String.length (fst p) <= 500)%nat)
                     (List.map (fun o => (opt_text o, opt_isCorrect o))
                               (PrismaWrite.newOptions qid oid (cq_options data)))).
    { rewrite newOptions_payload. apply List.Forall_map, Forall_forall.
      intros o Ho. apply list_elem_of_In in Ho.
      rewrite forallb_forall in Hopts. specialize (Hopts o Ho).
      unfold QuestionValidator.optionFields in Hopts.
      apply andb_true_iff in Hopts as [H1 H2].
      apply Nat.leb_le in H1, H2. simpl. lia. }
    apply List.Forall_map in Hpay. exact Hpay.
Qed.

(** The question "What is 3 + 3?", created in the sample store. *)
Lemma accepted_choice_question_is_well_formed_witness :
  exists db' q,
    QuestionAdmin.createQuestion Sample.db Fixture.newId Fixture.newOptionId
      Sample.quizId Fixture.sum = inr (db', q)
    /\ typeInvariant q.
Proof.
  destruct (QuestionAdmin.createQuestion Sample.db Fixture.newId Fixture.newOptionId
              Sample.quizId Fixture.sum) as [e|[db' q]] eqn:H;
    [vm_compute in H; discriminate|].
  exists db', q. split; [done|].
  assert (Hfresh : freshQuestion Sample.db Fixture.newId)
    by (split; repeat constructor; discriminate).
  apply (accepted_choice_question_is_well_formed Sample.db Fixture.newId
           Fixture.newOptionId Sample.quizId Fixture.sum db' q);
    [vm_compute; reflexivity | discriminate | exact Hfresh | exact H].
Defined.

Lemma forallb_reflag (flag : OptionInput -> bool) l :
  forallb QuestionValidator.optionFields
          (List.map (fun o => mkOptionInput (oi_text o) (flag o)) l)
  = forallb QuestionValidator.optionFields l.
Proof. induction l as [|o l IH]; simpl; [done|]. by rewrite IH. Qed.

(** X11.  The creation schema does not read the flag of a TEXT option: a
    TEXT body is accepted or refused whatever flags its options carry.  And
    a TEXT question created with no option flagged correct marks every
    answer incorrect and records the empty string as [correctAnswer]. *)
Theorem text_question_flag_is_unchecked db qid oid quizId data db' q :
  cq_type data = TEXT ->
  Forall (fun o => oi_isCorrect o = false) (cq_options data) ->
  freshQuestion db qid ->
  QuestionAdmin.createQuestion db qid oid quizId data = inr (db', q) ->
  (forall flag : OptionInput -> bool,
     QuestionValidator.createQuestionSchema
       (mkCreateQuestion (cq_text data) TEXT
          (List.map (fun o => mkOptionInput (oi_text o) (flag o)) (cq_options data)))
     = QuestionValidator.createQuestionSchema data)
  /\ forall answer,
       r_isCorrect (scoreAnswer q answer) = false
       /\ r_correctAnswer (scoreAnswer q answer) = OneText EmptyString.
Proof.
  intros Htype Hflags Hfresh H. split.
  - intros flag. unfold QuestionValidator.createQuestionSchema, QuestionValidator.refinement.
    rewrite Htype. cbn [cq_text cq_type cq_options QuestionType_eqb].
    rewrite forallb_reflag, length_map.
    by destruct (cq_options data) as [|o l].
  - intros answer.
    pose proof (created_correct_count _ _ _ _ _ _ _ Hfresh H) as Hcount.
    rewrite (filter_none oi_isCorrect (cq_options data) Hflags) in Hcount.
    apply nil_length_inv in Hcount.
    assert (Hty : q_type q = TEXT)
      by (by rewrite (created_question _ _ _ _ _ _ _ Hfresh H)).
    rewrite (text_result _ _ Hty).
    apply find_correct_None in Hcount. by rewrite Hcount.
Qed.

(** A TEXT question whose only option is flagged incorrect passes the
    schema; "Paris" is then a wrong answer to it. *)
Lemma text_question_flag_is_unchecked_witness :
  QuestionValidator.createQuestionSchema Fixture.unflagged = true
  /\ exists db' q,
       QuestionAdmin.createQuestion Sample.db Fixture.newId Fixture.newOptionId
         Sample.quizId Fixture.unflagged = inr (db', q)
       /\ r_isCorrect (scoreAnswer q (Sample.write Fixture.newId "Paris")) = false.
Proof.
  split; [vm_compute; reflexivity|].
  destruct (QuestionAdmin.createQuestion Sample.db Fixture.newId Fixture.newOptionId
              Sample.quizId Fixture.unflagged) as [e|[db' q]] eqn:H;
    [vm_compute in H; discriminate|].
  exists db', q. split; [done|].
  assert (Hfresh : freshQuestion Sample.db Fixture.newId)
    by (split; repeat constructor; discriminate).
  assert (Hflags : Forall (fun o => oi_isCorrect o = false) (cq_options Fixture.unflagged))
    by (repeat constructor).
  destruct (text_question_flag_is_unchecked Sample.db Fixture.newId Fixture.newOptionId
              Sample.quizId Fixture.unflagged db' q eq_refl Hflags Hfresh H)
    as (_ & Hall).
  apply Hall.
Defined.

(** ** Deleting a question *)

Lemma deleteQuestion_inv db questionId db' msg :
  QuestionAdmin.deleteQuestion db questionId = inr (db', msg) ->
  is_Some (PrismaWrite.question_findUnique db questionId)
  /\ db' = PrismaWrite.question_delete db questionId
  /\ msg = "Question deleted successfully"%string.
Proof.
  unfold QuestionAdmin.deleteQuestion.
  destruct (PrismaWrite.question_findUnique db questionId); [|done].
  intros H. inversion H. eauto.
Qed.

(** X12.  Deleting a newly created question gives back the store as it was
    before the creation: rows of the question and of its options are gone
    and nothing else has changed. *)
Theorem delete_undoes_create db qid oid quizId data db' q :
  freshQuestion db qid ->
  QuestionAdmin.createQuestion db qid oid quizId data = inr (db', q) ->
  QuestionAdmin.deleteQuestion db' qid = inr (db, "Question deleted successfully"%string).
Proof.
  intros [Hrows Hopts] H. apply createQuestion_inv in H as (_ & -> & _).
  unfold QuestionAdmin.deleteQuestion, PrismaWrite.question_findUnique. simpl.
  rewrite find_app_split, find_none; simpl.
  2: { eapply Forall_impl; [exact Hrows|]. intros r Hr. by apply String.eqb_neq. }
  rewrite String.eqb_refl. do 2 f_equal.
  unfold PrismaWrite.question_delete. simpl. destruct db as [quizzes rows opts]. simpl in *.
  f_equal.
  - rewrite List.filter_app. simpl. rewrite String.eqb_refl. simpl.
    rewrite app_nil_r. apply filter_all.
    eapply Forall_impl; [exact Hrows|]. intros r Hr. simpl.
    apply negb_true_iff. by apply String.eqb_neq.
  - rewrite List.filter_app, (filter_none _ (PrismaWrite.newOptions _ _ _)).
    + rewrite app_nil_r. apply filter_all.
      eapply Forall_impl; [exact Hopts|]. intros o Ho. simpl.
      apply negb_true_iff. by apply String.eqb_neq.
    + eapply Forall_impl; [apply newOptions_questionId|]. intros o ->. simpl.
      by rewrite String.eqb_refl.
Qed.

(** Create a fourth question in the sample store, then delete it. *)
Lemma delete_undoes_create_witness :
  exists db' q,
    QuestionAdmin.createQuestion Sample.db Fixture.newId Fixture.newOptionId
      Sample.quizId Fixture.planet = inr (db', q)
    /\ QuestionAdmin.deleteQuestion db' Fixture.newId
       = inr (Sample.db, "Question deleted successfully"%string).
Proof.
  destruct (QuestionAdmin.createQuestion Sample.db Fixture.newId Fixture.newOptionId
              Sample.quizId Fixture.planet) as [e|[db' q]] eqn:H;
    [vm_compute in H; discriminate|].
  exists db', q. split; [done|].
  assert (Hfresh : freshQuestion Sample.db Fixture.newId)
    by (split; repeat constructor; discriminate).
  exact (delete_undoes_create Sample.db Fixture.newId Fixture.newOptionId Sample.quizId
           Fixture.planet db' q Hfresh H).
Defined.

Lemma find_filter_other {A} (key : A -> string) l x y :
  x <> y ->
  List.find (fun r => String.eqb (key r) x)
            (List.filter (fun r => negb (String.eqb (key r) y)) l)
  = List.find (fun r => String.eqb (key r) x) l.
Proof.
  intros Hne. induction l as [|r l IH]; simpl; [done|].
  destruct (String.eqb (key r) y) eqn:Hy; simpl.
  - apply String.eqb_eq in Hy.
    replace (String.eqb (key r) x) with false
      by (symmetry; apply String.eqb_neq; congruence).
    exact IH.
  - by rewrite IH.
Qed.

Lemma filter_filter_other {A} (key : A -> string) l x y :
  x <> y ->
  List.filter (fun r => String.eqb (key r) x)
              (List.filter (fun r => negb (String.eqb (key r) y)) l)
  = List.filter (fun r => String.eqb (key r) x) l.
Proof.
  intros Hne. induction l as [|r l IH]; simpl; [done|].
  destruct (String.eqb (key r) y) eqn:Hy; simpl.
  - apply String.eqb_eq in Hy.
    replace (String.eqb (key r) x) with false
      by (symmetry; apply String.eqb_neq; congruence).
    exact IH.
  - by rewrite IH.
Qed.

Lemma filter_out_Forall {A} (key : A -> string) l y :
  Forall (fun r => key r <> y) (List.filter (fun r => negb (String.eqb (key r) y)) l).
Proof.
  apply Forall_forall. intros r Hr. apply list_elem_of_In, filter_In in Hr as [_ Hr].
  apply negb_true_iff in Hr. by apply String.eqb_neq.
Qed.

(** X13.  After [deleteQuestion] has returned, the question is gone - to
    read it or to delete it again fails with the 404 error "Question not
    found" - no option row references it any more, the quizzes are
    untouched, and every other question reads as before. *)
Theorem delete_question_effect db questionId db' msg :
  QuestionAdmin.deleteQuestion db questionId = inr (db', msg) ->
  QuestionAdmin.getQuestionById db' questionId = inl QuestionAdmin.questionNotFound
  /\ QuestionAdmin.deleteQuestion db' questionId = inl QuestionAdmin.questionNotFound
  /\ statusCode QuestionAdmin.questionNotFound = StatusCodes.NOT_FOUND
  /\ Forall (fun o => opt_questionId o <> questionId) (optionTable db')
  /\ quizTable db' = quizTable db
  /\ forall other, other <> questionId ->
       QuestionAdmin.getQuestionById db' other = QuestionAdmin.getQuestionById db other.
Proof.
  intros H. apply deleteQuestion_inv in H as (_ & -> & _).
  assert (Hgone : PrismaWrite.question_findUnique
                    (PrismaWrite.question_delete db questionId) questionId = None).
  { unfold PrismaWrite.question_findUnique. simpl. apply find_none.
    eapply Forall_impl; [apply (filter_out_Forall row_id)|].
    intros r Hr. by apply String.eqb_neq. }
  split; [|split; [|split; [done|split; [|split; [done|]]]]].
  - unfold QuestionAdmin.getQuestionById. by rewrite Hgone.
  - unfold QuestionAdmin.deleteQuestion. by rewrite Hgone.
  - apply (filter_out_Forall opt_questionId).
  - intros other Hne.
    unfold QuestionAdmin.getQuestionById, PrismaWrite.question_findUnique. simpl.
    rewrite (find_filter_other row_id) by done.
    destruct (List.find _ (questionTable db)) as [r|] eqn:Hr; [|done].
    apply find_some in Hr as [_ Hid]. apply String.eqb_eq in Hid.
    unfold Prisma.withOptions, Prisma.optionsOf. simpl.
    rewrite (filter_filter_other opt_questionId) by congruence. done.
Qed.

(** Deleting the TEXT question of the sample quiz. *)
Lemma delete_question_effect_witness :
  exists db',
    QuestionAdmin.deleteQuestion Sample.db Sample.textId
    = inr (db', "Question deleted successfully"%string)
    /\ QuestionAdmin.getQuestionById db' Sample.textId
       = inl QuestionAdmin.questionNotFound
    /\ length (questionTable db') = 2%nat.
Proof.
  eexists. split; [vm_compute; reflexivity|].
  destruct (delete_question_effect Sample.db Sample.textId _ _ eq_refl) as (Hget & _).
  split; [exact Hget | reflexivity].
Defined.

(** ** Updating a question *)

Lemma find_update_other l questionId other (f : QuestionRow -> QuestionRow) :
  (forall r, row_id (f r) = row_id r) ->
  List.find (fun r => String.eqb (row_id r) other)
            (List.map (fun r => if String.eqb (row_id r) questionId then f r else r) l)
  = (fun r => if String.eqb (row_id r) questionId then f r else r)
      <$> List.find (fun r => String.eqb (row_id r) other) l.
Proof.
  intros Hf. induction l as [|r l IH]; simpl; [done|].
  assert (Hid : row_id (if String.eqb (row_id r) questionId then f r else r) = row_id r)
    by (destruct (String.eqb (row_id r) questionId); [apply Hf | done]).
  rewrite Hid. by destruct (String.eqb (row_id r) other).
Qed.

Lemma optionsOf_update db oid questionId data id :
  Prisma.optionsOf
    (PrismaWrite.question_update (PrismaWrite.option_deleteMany db questionId)
       questionId oid data) id
  = if String.eqb questionId id
    then PrismaWrite.newOptions questionId oid (cq_options data)
    else Prisma.optionsOf db id.
Proof.
  rewrite (optionsOf_append (PrismaWrite.option_deleteMany db questionId) _
             questionId oid (cq_options data)) by reflexivity.
  unfold Prisma.optionsOf at 1. simpl.
  destruct (String.eqb questionId id) eqn:Heq.
  - apply String.eqb_eq in Heq as <-. rewrite filter_none; [done|].
    eapply Forall_impl; [apply (filter_out_Forall opt_questionId)|].
    intros o Ho. by apply String.eqb_neq.
  - apply String.eqb_neq in Heq.
    rewrite (filter_filter_other opt_questionId) by congruence. apply app_nil_r.
Qed.

(** X14.  After [updateQuestion] has returned, the question keeps its
    identifier and its quiz, bears the submitted text and type, and its
    options are the submitted ones and no other - none of the former
    options is left, and there is at least one when the body passed
    [createQuestionSchema]; [getQuestionById] returns that question, and
    every other question reads as before. *)
Theorem update_replaces_options db oid questionId data db' q :
  QuestionAdmin.updateQuestion db oid questionId data = inr (db', q) ->
  exists existing,
    PrismaWrite.question_findUnique db questionId = Some existing
    /\ q = mkQuestion questionId (cq_text data) (cq_type data) (row_quizId existing)
             (PrismaWrite.newOptions questionId oid (cq_options data))
    /\ Prisma.optionsOf db' questionId
       = PrismaWrite.newOptions questionId oid (cq_options data)
    /\ (QuestionValidator.createQuestionSchema data = true -> q_options q <> [])
    /\ QuestionAdmin.getQuestionById db' questionId
       = inr {| qd_question := q;
                qd_quiz := Prisma.quiz_findUnique db (row_quizId existing) |}
    /\ forall other, other <> questionId ->
         QuestionAdmin.getQuestionById db' other = QuestionAdmin.getQuestionById db other.
Proof.
  unfold QuestionAdmin.updateQuestion.
  destruct (PrismaWrite.question_findUnique db questionId) as [existing|] eqn:Hex; [|done].
  intros H. inversion H; subst; clear H.
  pose proof (question_findUnique_id _ _ _ Hex) as [Hid _].
  exists existing. split; [done|].
  assert (Hq : Prisma.withOptions
                 (PrismaWrite.question_update (PrismaWrite.option_deleteMany db questionId)
                    questionId oid data)
                 (mkQuestionRow (row_id existing) (cq_text data) (cq_type data)
                    (row_quizId existing))
               = mkQuestion questionId (cq_text data) (cq_type data) (row_quizId existing)
                   (PrismaWrite.newOptions questionId oid (cq_options data))).
  { unfold Prisma.withOptions. simpl. rewrite optionsOf_update, Hid.
    by rewrite String.eqb_refl. }
  split; [exact Hq|]. split; [|split; [|split]].
  - by rewrite optionsOf_update, String.eqb_refl.
  - rewrite Hq. simpl. unfold QuestionValidator.createQuestionSchema.
    rewrite !andb_true_iff. intros [[_ Hlen] _] Hnil.
    apply (f_equal length) in Hnil. rewrite newOptions_length in Hnil.
    apply Nat.leb_le in Hlen. simpl in Hnil. lia.
  - unfold QuestionAdmin.getQuestionById, PrismaWrite.question_findUnique in *. simpl.
    rewrite find_update_other by done. rewrite Hex. simpl.
    rewrite Hid in Hq |- *. rewrite String.eqb_refl. by rewrite Hq.
  - intros other Hne.
    unfold QuestionAdmin.getQuestionById, PrismaWrite.question_findUnique. simpl.
    rewrite find_update_other by done.
    destruct (List.find _ (questionTable db)) as [r|] eqn:Hr; [|done]. simpl.
    apply find_some in Hr as [_ Hrid]. apply String.eqb_eq in Hrid.
    replace (String.eqb (row_id r) questionId) with false
      by (symmetry; apply String.eqb_neq; congruence).
    unfold Prisma.withOptions. rewrite optionsOf_update.
    replace (String.eqb questionId (row_id r)) with false
      by (symmetry; apply String.eqb_neq; congruence).
    done.
Qed.

(** The update of the test-suite: "What is 3 + 3?" with the options 5, 6
    and 7 replaces the three options of the first question. *)
Lemma update_replaces_options_witness :
  exists db' q,
    QuestionAdmin.updateQuestion Sample.db Fixture.newOptionId Sample.singleId Fixture.sum
    = inr (db', q)
    /\ List.map opt_text (Prisma.optionsOf db' Sample.singleId) = ["5"; "6"; "7"]%string.
Proof.
  destruct (QuestionAdmin.updateQuestion Sample.db Fixture.newOptionId Sample.singleId
              Fixture.sum) as [e|[db' q]] eqn:H;
    [vm_compute in H; discriminate|].
  exists db', q. split; [done|].
  destruct (update_replaces_options Sample.db Fixture.newOptionId Sample.singleId
              Fixture.sum db' q H) as (r & _ & _ & Hopts & _).
  rewrite Hopts. reflexivity.
Defined.

(** ** Deleting a quiz *)

Lemma deleteQuiz_inv db quizId db' msg :
  QuizService.deleteQuiz db quizId = inr (db', msg) ->
  is_Some (Prisma.quiz_findUnique db quizId)
  /\ db' = PrismaWrite.quiz_delete db quizId.
Proof.
  unfold QuizService.deleteQuiz.
  destruct (Prisma.quiz_findUnique db quizId); [|done].
  intros H. inversion H. eauto.
Qed.

(** X15.  After [deleteQuiz] has returned, the quiz is gone with its
    questions and their options: the two views and every submission fail
    with the 404 error "Quiz not found", no question row names the quiz and
    no option row belongs to a question that it had.  When the question
    identifiers of the store are pairwise distinct, every other quiz keeps
    its questions and their options. *)
Theorem delete_quiz_cascades db quizId db' msg :
  QuizService.deleteQuiz db quizId = inr (db', msg) ->
  getQuizQuestions db' quizId = inl quizNotFound
  /\ QuestionAdmin.getQuizQuestionsWithAnswers db' quizId = inl quizNotFound
  /\ (forall data, submitQuizAnswers db' quizId data = inl quizNotFound)
  /\ statusCode quizNotFound = StatusCodes.NOT_FOUND
  /\ Forall (fun r => row_quizId r <> quizId) (questionTable db')
  /\ Forall (fun o => forall r, In r (questionTable db) -> row_quizId r = quizId ->
                                opt_questionId o <> row_id r)
            (optionTable db')
  /\ (NoDup (List.map row_id (questionTable db)) ->
      forall other, other <> quizId ->
        Prisma.quiz_findUnique db' other = Prisma.quiz_findUnique db other
        /\ Prisma.question_findMany db' other = Prisma.question_findMany db other).
Proof.
  intros H. apply deleteQuiz_inv in H as (_ & ->).
  assert (Hgone : Prisma.quiz_findUnique (PrismaWrite.quiz_delete db quizId) quizId = None).
  { unfold Prisma.quiz_findUnique. simpl. apply find_none.
    eapply Forall_impl; [apply (filter_out_Forall quiz_id)|].
    intros q Hq. by apply String.eqb_neq. }
  split; [|split; [|split; [|split; [done|split; [|split]]]]].
  - unfold getQuizQuestions. by rewrite Hgone.
  - unfold QuestionAdmin.getQuizQuestionsWithAnswers. by rewrite Hgone.
  - intros data. unfold submitQuizAnswers. by rewrite Hgone.
  - apply (filter_out_Forall row_quizId).
  - simpl. apply Forall_forall. intros o Ho r Hr Hquiz Heq.
    apply list_elem_of_In, filter_In in Ho as [_ Ho].
    apply negb_true_iff in Ho.
    assert (Hex : existsb (fun r => String.eqb (row_id r) (opt_questionId o)
                                    && String.eqb (row_quizId r) quizId)
                          (questionTable db) = true).
    { apply existsb_exists. exists r. split; [done|].
      rewrite Heq, Hquiz, !String.eqb_refl. done. }
    congruence.
  - intros Hnd other Hne. split.
    + unfold Prisma.quiz_findUnique. simpl. by apply (find_filter_other quiz_id).
    + unfold Prisma.question_findMany, Prisma.rowsOf. simpl.
      rewrite (filter_filter_other row_quizId) by done.
      apply map_ext_in. intros r Hr. apply filter_In in Hr as [Hr Hrq].
      apply String.eqb_eq in Hrq.
      unfold Prisma.withOptions, Prisma.optionsOf. simpl. f_equal.
      induction (optionTable db) as [|o opts IH]; simpl; [done|].
      destruct (String.eqb (opt_questionId o) (row_id r)) eqn:Ho.
      * apply String.eqb_eq in Ho.
        assert (Hkeep : existsb (fun r0 => String.eqb (row_id r0) (opt_questionId o)
                                          && String.eqb (row_quizId r0) quizId)
                                (questionTable db) = false).
        { apply not_true_is_false. intros Hex.
          apply existsb_exists in Hex as (r0 & Hr0 & Hboth).
          apply andb_true_iff in Hboth as [Hid Hq].
          apply String.eqb_eq in Hid, Hq.
          assert (r0 = r).
          { clear -Hnd Hr Hr0 Hid Ho.
            induction (questionTable db) as [|x l IHl]; [done|].
            simpl in Hnd. apply NoDup_cons in Hnd as [Hx Hnd].
            destruct Hr as [->|Hr], Hr0 as [->|Hr0]; try done.
            - exfalso. apply Hx. apply list_elem_of_In, in_map_iff.
              exists r0. split; [congruence | done].
            - exfalso. apply Hx. apply list_elem_of_In, in_map_iff.
              exists r. split; [congruence | done].
            - by apply IHl. }
          subst r0. congruence. }
        rewrite Hkeep. simpl. rewrite Ho, String.eqb_refl. by rewrite IH.
      * destruct (negb _); simpl; rewrite ?Ho; exact IH.
Qed.

(** Deleting the sample quiz empties the store. *)
Lemma delete_quiz_cascades_witness :
  QuizService.deleteQuiz Sample.db Sample.quizId
  = inr (mkDb [] [] [], "Quiz deleted successfully"%string)
  /\ submitQuizAnswers (mkDb [] [] []) Sample.quizId Sample.allCorrect = inl quizNotFound.
Proof.
  split; [vm_compute; reflexivity|].
  destruct (delete_quiz_cascades Sample.db Sample.quizId (mkDb [] [] []) _ eq_refl)
    as (_ & _ & Hsub & _).
  apply Hsub.
Defined.

(** ** Responses *)





(** X17.  What the error handler keeps to itself.  The response to a Prisma
    client error depends on its class and code only, in every environment;
    and in production the response to any other thrown value that has no
    status code and is not named ValidationError is the same 500 "Internal
    server error" whatever its message. *)
Theorem error_handler_hides_messages {D} p s n m m' :
  (forall NODE_ENV NODE_ENV' s' n',
     p <> None ->
     Middleware.errorHandler (D := D) NODE_ENV (mkThrown p s m n)
     = Middleware.errorHandler NODE_ENV' (mkThrown p s' m' n'))
  /\ (p = None -> Middleware.truthyNumber s = false -> n <> Some "ValidationError"%string ->
      Middleware.errorHandler (D := D) "production" (mkThrown p s m n)
      = mkResponse 500 (mkEnvelope "error" "Internal server error" None)
      /\ Middleware.errorHandler (D := D) "production" (mkThrown p s m' n)
         = mkResponse 500 (mkEnvelope "error" "Internal server error" None)).
Proof.
  split.
  - intros env env' s' n' Hp. unfold Middleware.errorHandler. simpl.
    destruct p as [[code| |]|]; done.
  - intros -> Hs Hn. unfold Middleware.errorHandler. simpl. rewrite Hs. simpl.
    rewrite bool_decide_eq_false_2 by done. done.
Qed.

(** A type error thrown in production. *)
Lemma error_handler_hides_messages_witness :
  Middleware.errorHandler (D := Score) "production"
    (mkThrown None None (Some "Cannot read properties of undefined") (Some "TypeError"))
  = mkResponse 500 (mkEnvelope "error" "Internal server error" None).
Proof.
  destruct (error_handler_hides_messages (D := Score) None None (Some "TypeError"%string)
              (Some "Cannot read properties of undefined"%string) None) as [_ H].
  destruct H as [H _]; [reflexivity | reflexivity | discriminate | exact H].
Defined.


(** ** Order of the results *)

(** X19.  The results of a submission that returns are in the order of the
    submitted answers, one per answer, each bearing the question identifier
    of its answer. *)
Theorem results_follow_answers db quizId data sc :
  submitQuizAnswers db quizId data = inr sc ->
  List.map r_questionId (results sc) = List.map questionId (answers data).
Proof.
  intros H. apply submit_inr_inv in H as (_ & _ & Hrl & _).
  apply mapM_Some in Hrl.
  induction Hrl as [|a r todo rl Hr _ IH]; simpl; [done|].
  f_equal; [|exact IH].
  unfold resolved in Hr. destruct (_ !! questionId a) as [q|]; [|done].
  simpl in Hr. inversion Hr. apply scoreAnswer_questionId.
Qed.

(** On the sample quiz: the three answers of the full-marks request. *)
Lemma results_follow_answers_witness :
  exists sc,
    submitQuizAnswers Sample.db Sample.quizId Sample.allCorrect = inr sc
    /\ List.map r_questionId (results sc)
       = [Sample.singleId; Sample.multiId; Sample.textId].
Proof.
  eexists. split; [vm_compute; reflexivity|].
  apply (results_follow_answers Sample.db Sample.quizId Sample.allCorrect). reflexivity.
Defined.

(** ** A blank stored answer *)

Lemma toLowerCase_empty s : JS.toLowerCase s = EmptyString -> s = EmptyString.
Proof. by destruct s. Qed.

Lemma trim_blank s : blankString s = true -> JS.trim s = EmptyString.
Proof. intros H. unfold JS.trim. by rewrite (trimStart_all_blank s H). Qed.

(** X20.  A TEXT question whose stored correct text is white space only -
    the creation schema asks for one code unit, not for a visible one -
    cannot be answered correctly by any answer that the submission schema
    accepts: text answers must not be blank, and a blank is what it would
    take. *)
Theorem blank_stored_answer_is_unanswerable question c answer :
  q_type question = TEXT ->
  List.find opt_isCorrect (q_options question) = Some c ->
  blankString (opt_text c) = true ->
  Validator.choicePayload answer || Validator.textPayload answer = true ->
  r_isCorrect (scoreAnswer question answer) = false.
Proof.
  intros Hty Hc Hblank Hkind. rewrite (text_result _ _ Hty), Hc.
  apply orb_true_iff in Hkind as [Hchoice | Htext].
  - apply choicePayload_inv in Hchoice as [Hfalsy _].
    by destruct (textAnswer answer) as [[|a t]|].
  - unfold Validator.textPayload in Htext.
    destruct (textAnswer answer) as [[|a t]|]; try done. simpl.
    rewrite !andb_true_iff in Htext. destruct Htext as [[_ Hlen] _].
    apply not_true_is_false. intros Heq. apply String.eqb_eq in Heq.
    rewrite (trim_blank _ Hblank) in Heq. simpl in Heq.
    apply toLowerCase_empty in Heq. rewrite Heq in Hlen. done.
Qed.

(** A TEXT question whose answer is one space passes the creation schema;
    the answer " " does not pass the submission schema, and "x" is wrong. *)
Lemma blank_stored_answer_is_unanswerable_witness :
  QuestionValidator.createQuestionSchema
    (mkCreateQuestion "Type a space" TEXT [mkOptionInput " " true]) = true
  /\ r_isCorrect
       (scoreAnswer (mkQuestion Sample.textId "Type a space" TEXT Sample.quizId
                       [mkOption (Sample.opt "31") " " true Sample.textId])
                    (Sample.write Sample.textId "x")) = false.
Proof.
  split; [vm_compute; reflexivity|].
  apply (blank_stored_answer_is_unanswerable _
           (mkOption (Sample.opt "31") " " true Sample.textId)); reflexivity.
Defined.
